(** * Brick Breaker: a shallow embedding of [brick.py] and its properties

    The game is a tkinter program.  Its numbers are Python floats and ints:
    floats are idealised as real numbers ([R], with [sin], [cos], [sqrt] and
    [PI] of the Standard Library), ints are [Z].  The tkinter canvas is kept
    as the data each game object reads back from it: an item id, the four
    coordinates [coords()] returns and, for bricks, the fill colour.  Canvas
    item ids are handed out by a counter, as tkinter does.  The test by
    which [canvas.find_overlapping] decides that an item overlaps a rectangle
    is a parameter of the collision code, and the outcome of
    [random.uniform(30, 150)] is an argument of the constructors that draw
    it.  An exception that escapes a callback ends the run of that callback:
    [result] keeps the exception and drops the state. *)

From Stdlib Require Import Reals Lra Lia ZArith Bool String List.
Import ListNotations.
Open Scope R_scope.

(** ** Python comparisons on floats, as booleans *)

Definition Rleb (x y : R) : bool := if Rle_dec x y then true else false.
Definition Rltb (x y : R) : bool := if Rlt_dec x y then true else false.

(** ** Exceptions *)

Inductive exn : Set := ZeroDivisionError.

Inductive result (A : Type) : Type :=
| Ok (a : A)
| Raise (e : exn).
Arguments Ok {A} a.
Arguments Raise {A} e.

Definition bind {A B : Type} (m : result A) (k : A -> result B) : result B :=
  match m with
  | Ok a => k a
  | Raise e => Raise e
  end.

Notation "x <- m ;; k" := (bind m (fun x => k))
  (at level 61, m at next level, right associativity).

(** Python's [a / b] on floats raises when [b] is zero. *)
Definition truediv (a b : R) : result R :=
  if Req_dec_T b 0 then Raise ZeroDivisionError else Ok (a / b).

(** ** The [math] module *)

Module math.
Definition radians (deg : R) : R := deg * (PI / 180).
Definition hypot (x y : R) : R := sqrt (x * x + y * y).

(** [math.atan2(y, x)] on reals (no signed zeros). *)
Definition atan2 (y x : R) : R :=
  if Rlt_dec 0 x then atan (y / x)
  else if Rlt_dec x 0 then
         if Rle_dec 0 y then atan (y / x) + PI else atan (y / x) - PI
  else if Rlt_dec 0 y then PI / 2
  else if Rlt_dec y 0 then - (PI / 2)
  else 0.
End math.

(** ** Canvas coordinates of an item: [x1, y1, x2, y2] *)

Record Box : Type := mkBox { x1 : R; y1 : R; x2 : R; y2 : R }.

(** [canvas.move(item, dx, dy)] *)
Definition canvas_move (b : Box) (dx dy : R) : Box :=
  mkBox (x1 b + dx) (y1 b + dy) (x2 b + dx) (y2 b + dy).

(** The closed axis-aligned overlap test of two boxes. *)
Definition box_overlap (q b : Box) : bool :=
  Rleb (x1 b) (x2 q) && Rleb (x1 q) (x2 b) &&
  Rleb (y1 b) (y2 q) && Rleb (y1 q) (y2 b).

(** ** class Brick *)

Module Brick.
(** [COLORS = {1: '#4535AA', 2: '#ED639E', 3: '#8FE1A2'}] *)
Definition COLORS (hits : Z) : option string :=
  match hits with
  | 1%Z => Some "#4535AA"%string
  | 2%Z => Some "#ED639E"%string
  | 3%Z => Some "#8FE1A2"%string
  | _ => None
  end.

(** [Brick.COLORS.get(hits, '#CCCCCC')] *)
Definition COLORS_get (hits : Z) : string :=
  match COLORS hits with
  | Some c => c
  | None => "#CCCCCC"%string
  end.

Record t : Type := mk {
  item : nat;        (* canvas item id *)
  box : Box;         (* the rectangle's coordinates on the canvas *)
  fill : string;     (* the rectangle's fill colour on the canvas *)
  width : R;
  height : R;
  hits : Z
}.

(** [Brick(canvas, x, y, hits)], drawn as canvas item [i]. *)
Definition init (i : nat) (x y : R) (h : Z) : t :=
  let w := 75 in
  let ht := 20 in
  mk i (mkBox (x - w / 2) (y - ht / 2) (x + w / 2) (y + ht / 2))
     (COLORS_get h) w ht h.

(** [hit]: the brick after the call, and the returned flag.  When the
    flag is [true] the canvas item has been deleted. *)
Definition hit (b : t) : t * bool :=
  let h := (hits b - 1)%Z in
  if (h <=? 0)%Z then
    (mk (item b) (box b) (fill b) (width b) (height b) h, true)
  else
    (mk (item b) (box b) (COLORS_get h) (width b) (height b) h, false).
End Brick.

(** ** class Paddle *)

Module Paddle.
Record t : Type := mk {
  item : nat;
  box : Box;
  width : R;
  height : R;
  canvas_width : Z
}.

(** [Paddle(canvas, x, y, width, height)] on a canvas [cw] wide. *)
Definition init (i : nat) (cw : Z) (x y w h : R) : t :=
  mk i (mkBox (x - w / 2) (y - h / 2) (x + w / 2) (y + h / 2)) w h cw.

Definition coords (p : t) : Box := box p.

(** [canvas.coords(item, x1, y1, x2, y2)] stores the four numbers it is
    given. *)
Definition move_to (x_center : R) (p : t) : t :=
  let half := width p / 2 in
  let nx1 := Rmax 0 (x_center - half) in
  let nx2 := Rmin (IZR (canvas_width p)) (x_center + half) in
  let ny1 := y1 (coords p) in
  let ny2 := y2 (coords p) in
  mk (item p) (mkBox nx1 ny1 nx2 ny2) (width p) (height p) (canvas_width p).
End Paddle.

(** ** class Ball *)

Module Ball.
Record t : Type := mk {
  item : nat;
  box : Box;
  radius : R;
  vx : R;
  vy : R;
  speed : R
}.

(** [Ball(canvas, x, y, radius, speed)]; [angle] is the value drawn by
    [random.uniform(30, 150)]. *)
Definition init (i : nat) (x y r s : R) (angle : R) : t :=
  let rad := math.radians angle in
  mk i (mkBox (x - r) (y - r) (x + r) (y + r)) r
     (s * cos rad) (- Rabs (s * sin rad)) s.

Definition set_box (b : t) (bx : Box) : t :=
  mk (item b) bx (radius b) (vx b) (vy b) (speed b).

Definition set_velocity (b : t) (nvx nvy : R) : t :=
  mk (item b) (box b) (radius b) nvx nvy (speed b).

Definition move (b : t) : t := set_box b (canvas_move (box b) (vx b) (vy b)).

Definition position (b : t) : Box := box b.

Definition bounce_x (b : t) : t := set_velocity b (- vx b) (vy b).

Definition bounce_y (b : t) : t := set_velocity b (vx b) (- vy b).

Definition set_speed (s : R) (b : t) : result t :=
  let mag := math.hypot (vx b) (vy b) in
  scale <- truediv s mag ;;
  Ok (mk (item b) (box b) (radius b) (vx b * scale) (vy b * scale) s).

Definition increase_speed (delta : R) (b : t) : result t :=
  set_speed (speed b + delta) b.
End Ball.

(** ** class BrickBreaker *)

Module BrickBreaker.
Record t : Type := mk {
  width : Z;
  height : Z;
  score : Z;
  level : Z;
  lives : Z;
  started : bool;
  paused : bool;
  paddle : Paddle.t;
  ball : Ball.t;
  bricks : list Brick.t;
  next_item : nat;   (* the id the canvas gives to the next item created *)
  scheduled : bool   (* a [root.after(16, self.loop)] callback is pending *)
}.

Definition set_score (g : t) (s : Z) : t :=
  mk (width g) (height g) s (level g) (lives g) (started g) (paused g)
     (paddle g) (ball g) (bricks g) (next_item g) (scheduled g).
Definition set_level (g : t) (l : Z) : t :=
  mk (width g) (height g) (score g) l (lives g) (started g) (paused g)
     (paddle g) (ball g) (bricks g) (next_item g) (scheduled g).
Definition set_lives (g : t) (l : Z) : t :=
  mk (width g) (height g) (score g) (level g) l (started g) (paused g)
     (paddle g) (ball g) (bricks g) (next_item g) (scheduled g).
Definition set_started (g : t) (s : bool) : t :=
  mk (width g) (height g) (score g) (level g) (lives g) s (paused g)
     (paddle g) (ball g) (bricks g) (next_item g) (scheduled g).
Definition set_paused (g : t) (p : bool) : t :=
  mk (width g) (height g) (score g) (level g) (lives g) (started g) p
     (paddle g) (ball g) (bricks g) (next_item g) (scheduled g).
Definition set_paddle (g : t) (p : Paddle.t) : t :=
  mk (width g) (height g) (score g) (level g) (lives g) (started g) (paused g)
     p (ball g) (bricks g) (next_item g) (scheduled g).
Definition set_ball (g : t) (b : Ball.t) : t :=
  mk (width g) (height g) (score g) (level g) (lives g) (started g) (paused g)
     (paddle g) b (bricks g) (next_item g) (scheduled g).
Definition set_bricks (g : t) (bs : list Brick.t) : t :=
  mk (width g) (height g) (score g) (level g) (lives g) (started g) (paused g)
     (paddle g) (ball g) bs (next_item g) (scheduled g).
Definition set_scheduled (g : t) (s : bool) : t :=
  mk (width g) (height g) (score g) (level g) (lives g) (started g) (paused g)
     (paddle g) (ball g) (bricks g) (next_item g) s.

(** [canvas.create_text(...)] and the like: one more item on the canvas. *)
Definition create_item (g : t) : t :=
  mk (width g) (height g) (score g) (level g) (lives g) (started g) (paused g)
     (paddle g) (ball g) (bricks g) (S (next_item g)) (scheduled g).

(** [range(n)] *)
Definition range (n : Z) : list Z := map Z.of_nat (seq 0 (Z.to_nat n)).

(** [self.bricks.append(Brick(self.canvas, x, y, hits))] *)
Definition append_brick (x y : R) (h : Z) (g : t) : t :=
  create_item (set_bricks g (bricks g ++ [Brick.init (next_item g) x y h])).

(** *** Level system *)

Definition build_level (lvl : Z) (g : t) : t :=
  (* for b in self.bricks: b.delete();  self.bricks.clear() *)
  let g := set_bricks g [] in
  let rows := Z.min 6 (3 + lvl) in
  let cols := 8%Z in
  let mx := 60%Z in
  let spacing_x := IZR (width g - 2 * mx) / IZR cols in
  let top_y := 60%Z in
  fold_left
    (fun g r =>
       fold_left
         (fun g c =>
            let x := IZR mx + spacing_x * IZR c + spacing_x / 2 in
            let y := IZR (top_y + r * 26) in
            let h := Z.min 3 (1 + (r + lvl) / 2) in
            append_brick x y h g)
         (range cols) g)
    (range rows) g.

(** *** Input *)

Definition mouse_move (ex : Z) (g : t) : t :=
  let g := set_paddle g (Paddle.move_to (IZR ex) (paddle g)) in
  if negb (started g) && negb (paused g) then
    let px := (x1 (Paddle.coords (paddle g)) + x2 (Paddle.coords (paddle g))) / 2 in
    let cx := (x1 (Ball.position (ball g)) + x2 (Ball.position (ball g))) / 2 in
    let dx := px - cx in
    set_ball g (Ball.set_box (ball g) (canvas_move (Ball.box (ball g)) dx 0))
  else g.

Definition keyboard_move (delta : Z) (g : t) : t :=
  let x := (x1 (Paddle.coords (paddle g)) + x2 (Paddle.coords (paddle g))) / 2
           + IZR delta in
  set_paddle g (Paddle.move_to x (paddle g)).

Definition start_ball (g : t) : t :=
  if negb (started g) then set_started g true else g.

Definition toggle_pause (g : t) : t := set_paused g (negb (paused g)).

(** *** Collision *)

Section Collision.
(** The canvas's test of whether an item overlaps a query rectangle,
    as [canvas.find_overlapping] applies it. *)
Variable overlapping : Box -> Box -> bool.

(** [canvas.find_overlapping(bx1, by1, bx2, by2)], restricted to the
    items tagged ['brick']: the brick items are those of [self.bricks],
    in creation order. *)
Definition find_overlapping (q : Box) (bs : list Brick.t) : list nat :=
  map Brick.item (filter (fun b => overlapping q (Brick.box b)) bs).

(** Lines 220-223: the walls. *)
Definition check_walls (pos : Box) (g : t) : t :=
  let g := if Rleb (x1 pos) 0 || Rleb (IZR (width g)) (x2 pos)
           then set_ball g (Ball.bounce_x (ball g)) else g in
  if Rleb (y1 pos) 0 then set_ball g (Ball.bounce_y (ball g)) else g.

(** The condition of line 226. *)
Definition paddle_hit (pos : Box) (g : t) : bool :=
  let pc := Paddle.coords (paddle g) in
  Rleb (y1 pc) (y2 pos) && Rleb (x1 pc) (x2 pos) && Rleb (x1 pos) (x2 pc)
  && Rltb 0 (Ball.vy (ball g)).

(** Lines 225-233: the paddle. *)
Definition check_paddle (pos : Box) (g : t) : result t :=
  let pc := Paddle.coords (paddle g) in
  if paddle_hit pos g then
    let paddle_center := (x1 pc + x2 pc) / 2 in
    let ball_center := (x1 pos + x2 pos) / 2 in
    offset <- truediv (ball_center - paddle_center)
                      (Paddle.width (paddle g) / 2) ;;
    let angle := offset * math.radians 75 in
    let s := Ball.speed (ball g) in
    Ok (set_ball g (Ball.set_velocity (ball g)
                      (s * sin angle) (- Rabs (s * cos angle))))
  else Ok g.

(** Lines 238-245: the scan of [self.bricks] for the brick drawn as
    [it]; the flag [hit] returned and the list after the call. *)
Fixpoint hit_item (it : nat) (bs : list Brick.t)
  : option (bool * list Brick.t) :=
  match bs with
  | [] => None
  | b :: rest =>
      if Nat.eqb (Brick.item b) it then
        let (b', destroyed) := Brick.hit b in
        Some (destroyed, if destroyed then rest else b' :: rest)
      else
        match hit_item it rest with
        | Some (destroyed, rest') => Some (destroyed, b :: rest')
        | None => None
        end
  end.

(** Lines 237-245: the body of the loop over the overlapping items. *)
Definition collide (g : t) (it : nat) : t :=
  match hit_item it (bricks g) with
  | Some (destroyed, bs') =>
      let g := set_bricks g bs' in
      let g := set_score g (score g + (if destroyed then 10 else 5))%Z in
      set_ball g (Ball.bounce_y (ball g))
  | None => g
  end.

(** Lines 235-245: the bricks. *)
Definition check_bricks (pos : Box) (g : t) : t :=
  let overlap := find_overlapping pos (bricks g) in
  fold_left collide overlap g.

Definition check_collision (g : t) : result t :=
  let pos := Ball.position (ball g) in
  let g := check_walls pos g in
  g <- check_paddle pos g ;;
  Ok (check_bricks pos g).

(** *** Game over *)

Definition game_over (g : t) : t :=
  let g := create_item g in
  let g := create_item g in
  let g := set_started g false in
  set_paused g true.

(** *** Game loop *)

(** Lines 259-260 and 273-274: the ball is put back above the paddle,
    at [px-8, height-60-8, px+8, height-60+8]. *)
Definition parked (g : t) : Box :=
  let px := (x1 (Paddle.coords (paddle g)) + x2 (Paddle.coords (paddle g))) / 2 in
  mkBox (px - 8) (IZR (height g - 60 - 8)) (px + 8) (IZR (height g - 60 + 8)).

Definition park_ball (g : t) : t :=
  set_ball g (Ball.set_box (ball g) (parked g)).

(** Lines 283-285: the texts are refreshed and the next call of [loop]
    is scheduled. *)
Definition loop_end (g : t) : t := set_scheduled g true.

(** Lines 269-285. *)
Definition loop_level (g : t) : result t :=
  match bricks g with
  | [] =>
      let g := set_level g (level g + 1) in
      b <- Ball.increase_speed (8 / 10) (ball g) ;;
      let g := set_ball g b in
      let g := build_level (level g) g in
      let g := park_ball g in
      let g := set_started g false in
      let g := create_item g in
      Ok (loop_end g)
  | _ :: _ => Ok (loop_end g)
  end.

(** Lines 253-267, then the rest of [loop].  At game over [loop]
    returns at once: the next call is not scheduled. *)
Definition loop_lives (g : t) : result t :=
  let pos := Ball.position (ball g) in
  if Rleb (IZR (height g)) (y2 pos) then
    let g := set_lives g (lives g - 1) in
    if (lives g <=? 0)%Z then
      Ok (game_over g)
    else
      let g := park_ball g in
      let g := set_started g false in
      let g := create_item g in
      loop_level g
  else loop_level g.

(** [loop], called by the timer: the pending callback has fired, and
    only [loop_end] schedules the next one. *)
Definition loop (g : t) : result t :=
  let g := set_scheduled g false in
  if negb (paused g) && started g then
    let g := set_ball g (Ball.move (ball g)) in
    g <- check_collision g ;;
    loop_lives g
  else Ok (loop_end g).

(** *** Construction *)

(** [BrickBreaker(width, height)]; [angle] is the launch angle drawn
    for the ball.  Items 1 to 5 are the background image, the paddle,
    the ball and the two texts. *)
Definition init (w h : Z) (angle : R) : result t :=
  let p := Paddle.init 2 w (IZR w / 2) (IZR (h - 30)) 110 12 in
  let b := Ball.init 3 (IZR w / 2) (IZR (h - 60)) 8 5 angle in
  let g := mk w h 0 1 3 false false p b [] 6 false in
  let g := build_level (level g) g in
  let g := create_item g in
  loop g.

(** [BrickBreaker()] *)
Definition new_game (angle : R) : result t := init 720 520 angle.


(** *** Events of a session *)

Inductive event : Type :=
| Motion (x : Z)      (* <Motion>, with [e.x] *)
| KeyLeft             (* <Left> *)
| KeyRight            (* <Right> *)
| KeySpace            (* <space> *)
| KeyP                (* p *)
| Timer.              (* the callback scheduled by [root.after] *)

Definition handle (e : event) (g : t) : result t :=
  match e with
  | Motion x => Ok (mouse_move x g)
  | KeyLeft => Ok (keyboard_move (-30) g)
  | KeyRight => Ok (keyboard_move 30 g)
  | KeySpace => Ok (start_ball g)
  | KeyP => Ok (toggle_pause g)
  | Timer => if scheduled g then loop g else Ok g
  end.

Fixpoint run (es : list event) (g : t) : result t :=
  match es with
  | [] => Ok g
  | e :: es' => g' <- handle e g ;; run es' g'
  end.

(** The states of a session: a new game, then events. *)
Inductive reachable : t -> Prop :=
| reach_new (angle : R) (g : t) :
    30 <= angle <= 150 -> new_game angle = Ok g -> reachable g
| reach_event (e : event) (g g' : t) :
    reachable g -> handle e g = Ok g' -> reachable g'.
End Collision.

(** The states of the state machine of the game. *)
Inductive phase : Set := NotStarted | Playing | Paused | GameOver.

Definition phase_of (g : t) : phase :=
  if negb (scheduled g) then GameOver
  else if paused g then Paused
  else if started g then Playing
  else NotStarted.
End BrickBreaker.

(** ** The level layout in closed form

    What [build_level] is to produce, stated without the loops: the place
    and hit count of the brick in row [r] and column [c], the bricks in
    row-major order, numbered by the canvas from [first] on. *)

Definition place (w lvl r c : Z) : R * R * Z :=
  let spacing_x := IZR (w - 2 * 60) / 8 in
  (60 + spacing_x * IZR c + spacing_x / 2,
   IZR (60 + r * 26),
   Z.min 3 (1 + (r + lvl) / 2)%Z).

Definition layout (w lvl : Z) : list (R * R * Z) :=
  flat_map (fun r => map (place w lvl r) (BrickBreaker.range 8))
           (BrickBreaker.range (Z.min 6 (3 + lvl))).

Fixpoint number (first : nat) (l : list (R * R * Z)) : list Brick.t :=
  match l with
  | [] => []
  | (x, y, h) :: l' => Brick.init first x y h :: number (S first) l'
  end.

(** ** The brick collisions of one tick in closed form

    What the loop over the overlapping items is to produce, stated brick by
    brick: [touched] tells the bricks the ball overlaps. *)

(** A brick after one [hit()]: gone when destroyed, else with one hit less
    and the colour of its new tier. *)
Definition after_hit (b : Brick.t) : list Brick.t :=
  if (Brick.hits b - 1 <=? 0)%Z then []
  else [Brick.mk (Brick.item b) (Brick.box b) (Brick.COLORS_get (Brick.hits b - 1))
          (Brick.width b) (Brick.height b) (Brick.hits b - 1)].

Definition hit_all (touched : Brick.t -> bool) (bs : list Brick.t) : list Brick.t :=
  flat_map (fun b => if touched b then after_hit b else [b]) bs.

(** 10 points for a brick destroyed, 5 for a brick that survives its hit. *)
Definition award (b : Brick.t) : Z :=
  if (Brick.hits b - 1 <=? 0)%Z then 10%Z else 5%Z.

Definition points (touched : Brick.t -> bool) (bs : list Brick.t) : Z :=
  fold_right (fun b acc => ((if touched b then award b else 0) + acc)%Z) 0%Z bs.

(** ** What holds in every state of a session *)

(** The ball: its velocity has the magnitude [speed], at least the 5 of a
    new ball, and its oval is 16 wide and high (radius 8). *)
Definition ball_ok (b : Ball.t) : Prop :=
  math.hypot (Ball.vx b) (Ball.vy b) = Ball.speed b /\
  5 <= Ball.speed b /\
  x2 (Ball.box b) - x1 (Ball.box b) = 16 /\
  y2 (Ball.box b) - y1 (Ball.box b) = 16.

(** The paddle: [width] is 110, the rectangle is no wider, and its top and
    bottom are where the constructor drew them. *)
Definition paddle_ok (h : Z) (p : Paddle.t) : Prop :=
  Paddle.width p = 110 /\
  x2 (Paddle.box p) - x1 (Paddle.box p) <= 110 /\
  y1 (Paddle.box p) = IZR h - 36 /\
  y2 (Paddle.box p) = IZR h - 24.

Definition game_ok (g : BrickBreaker.t) : Prop :=
  ball_ok (BrickBreaker.ball g) /\
  paddle_ok (BrickBreaker.height g) (BrickBreaker.paddle g) /\
  (0 <= BrickBreaker.score g)%Z /\
  (5 | BrickBreaker.score g)%Z /\
  NoDup (map Brick.item (BrickBreaker.bricks g)) /\
  Forall (fun b => (Brick.item b < BrickBreaker.next_item g)%nat) (BrickBreaker.bricks g).

(** The lives: at most 3, and at least 1 while the loop is scheduled. *)
Definition session_ok (g : BrickBreaker.t) : Prop :=
  game_ok g /\
  (BrickBreaker.lives g <= 3)%Z /\
  (BrickBreaker.scheduled g = true -> 1 <= BrickBreaker.lives g)%Z.

(** Two states that differ at most by what the collisions of a tick
    change: the score, the bricks and the ball's velocity. *)
Definition same_but_collisions (g g' : BrickBreaker.t) : Prop :=
  BrickBreaker.width g' = BrickBreaker.width g /\
  BrickBreaker.height g' = BrickBreaker.height g /\
  BrickBreaker.level g' = BrickBreaker.level g /\
  BrickBreaker.lives g' = BrickBreaker.lives g /\
  BrickBreaker.started g' = BrickBreaker.started g /\
  BrickBreaker.paused g' = BrickBreaker.paused g /\
  BrickBreaker.paddle g' = BrickBreaker.paddle g /\
  BrickBreaker.next_item g' = BrickBreaker.next_item g /\
  BrickBreaker.scheduled g' = BrickBreaker.scheduled g /\
  Ball.item (BrickBreaker.ball g') = Ball.item (BrickBreaker.ball g) /\
  Ball.box (BrickBreaker.ball g') = Ball.box (BrickBreaker.ball g) /\
  Ball.radius (BrickBreaker.ball g') = Ball.radius (BrickBreaker.ball g) /\
  Ball.speed (BrickBreaker.ball g') = Ball.speed (BrickBreaker.ball g).

(** What no event changes once the loop is no longer scheduled: the loop
    stays unscheduled, and lives, score, level, bricks, the ball's velocity
    and its height on the field stay as they are. *)
Definition frozen (g g' : BrickBreaker.t) : Prop :=
  BrickBreaker.scheduled g' = false /\
  BrickBreaker.lives g' = BrickBreaker.lives g /\
  BrickBreaker.score g' = BrickBreaker.score g /\
  BrickBreaker.level g' = BrickBreaker.level g /\
  BrickBreaker.bricks g' = BrickBreaker.bricks g /\
  Ball.vx (BrickBreaker.ball g') = Ball.vx (BrickBreaker.ball g) /\
  Ball.vy (BrickBreaker.ball g') = Ball.vy (BrickBreaker.ball g) /\
  Ball.speed (BrickBreaker.ball g') = Ball.speed (BrickBreaker.ball g) /\
  y1 (Ball.box (BrickBreaker.ball g')) = y1 (Ball.box (BrickBreaker.ball g)) /\
  y2 (Ball.box (BrickBreaker.ball g')) = y2 (Ball.box (BrickBreaker.ball g)).

(** ** Bricks over several hits *)

(** The brick object after [k] calls of [hit()]. *)
Definition hit_times (k : nat) (b : Brick.t) : Brick.t :=
  Nat.iter k (fun b' => fst (Brick.hit b')) b.

(** The points the first [k] hits of a brick earn. *)
Fixpoint awards (k : nat) (b : Brick.t) : Z :=
  match k with
  | O => 0%Z
  | S k' => (award b + awards k' (fst (Brick.hit b)))%Z
  end.


(** A brick of one of the three tiers, drawn in the colour of its tier. *)
Definition tier_ok (b : Brick.t) : Prop :=
  (1 <= Brick.hits b <= 3)%Z /\
  Brick.COLORS (Brick.hits b) = Some (Brick.fill b).

(** ** The shapes the paddle takes

    Full width inside the field, or cut at the left or at the right wall
    with at least 50 of its 110 left. *)
Definition paddle_kept (p : Paddle.t) : Prop :=
  let W := IZR (Paddle.canvas_width p) in
  let b := Paddle.coords p in
  Paddle.width p = 110 /\ 140 <= W /\
  ((0 <= x1 b /\ x2 b = x1 b + 110 /\ x2 b <= W) \/
   (x1 b = 0 /\ 50 <= x2 b <= 110) \/
   (x2 b = W /\ W - 110 <= x1 b <= W - 50)).

(** * Properties *)

(** ** Comparisons *)

Lemma Rleb_true (x y : R) : Rleb x y = true <-> x <= y.
Proof. unfold Rleb; destruct (Rle_dec x y); split; intros; try easy; lra. Qed.

Lemma Rleb_false (x y : R) : Rleb x y = false <-> y < x.
Proof. unfold Rleb; destruct (Rle_dec x y); split; intros; try easy; lra. Qed.

Lemma Rltb_true (x y : R) : Rltb x y = true <-> x < y.
Proof. unfold Rltb; destruct (Rlt_dec x y); split; intros; try easy; lra. Qed.

Lemma Rltb_false (x y : R) : Rltb x y = false <-> y <= x.
Proof. unfold Rltb; destruct (Rlt_dec x y); split; intros; try easy; lra. Qed.

Lemma truediv_ok (a b : R) : b <> 0 -> truediv a b = Ok (a / b).
Proof. intros Hb; unfold truediv; destruct (Req_dec_T b 0); [contradiction | reflexivity]. Qed.

Lemma truediv_zero (a : R) : truediv a 0 = Raise ZeroDivisionError.
Proof. unfold truediv; destruct (Req_dec_T 0 0); [reflexivity | contradiction]. Qed.

(** ** The walls *)

Section Walls.
Import BrickBreaker.

Lemma check_walls_vx (pos : Box) (g : t) :
  Ball.vx (ball (check_walls pos g)) =
  if Rleb (x1 pos) 0 || Rleb (IZR (width g)) (x2 pos)
  then - Ball.vx (ball g) else Ball.vx (ball g).
Proof.
  unfold check_walls.
  destruct (Rleb (x1 pos) 0 || Rleb (IZR (width g)) (x2 pos));
    destruct (Rleb (y1 pos) 0); reflexivity.
Qed.

Lemma check_walls_vy (pos : Box) (g : t) :
  Ball.vy (ball (check_walls pos g)) =
  if Rleb (y1 pos) 0 then - Ball.vy (ball g) else Ball.vy (ball g).
Proof.
  unfold check_walls.
  destruct (Rleb (x1 pos) 0 || Rleb (IZR (width g)) (x2 pos));
    destruct (Rleb (y1 pos) 0); reflexivity.
Qed.

(** C9.  The wall check of [check_collision] negates [vx] exactly when
    the ball's left edge is at or below 0 or its right edge at or beyond
    the field width, and negates [vy] exactly when the top edge is at or
    below 0, whatever the sign of the velocity: a ball whose left edge is
    still at or below 0 while [vx] is already positive gets a negative
    [vx], back toward the wall. *)
Theorem walls_negate_regardless_of_direction (pos : Box) (g : t) :
  let b := ball g in
  let b' := ball (check_walls pos g) in
  (x1 pos <= 0 \/ IZR (width g) <= x2 pos -> Ball.vx b' = - Ball.vx b) /\
  (~ (x1 pos <= 0 \/ IZR (width g) <= x2 pos) -> Ball.vx b' = Ball.vx b) /\
  (y1 pos <= 0 -> Ball.vy b' = - Ball.vy b) /\
  (~ y1 pos <= 0 -> Ball.vy b' = Ball.vy b) /\
  (x1 pos <= 0 -> 0 < Ball.vx b -> Ball.vx b' < 0).
Proof.
  cbv zeta.
  rewrite check_walls_vx, check_walls_vy.
  assert (Hx : Rleb (x1 pos) 0 || Rleb (IZR (width g)) (x2 pos) = true
               <-> x1 pos <= 0 \/ IZR (width g) <= x2 pos).
  { rewrite orb_true_iff, !Rleb_true; tauto. }
  destruct (Rleb (x1 pos) 0 || Rleb (IZR (width g)) (x2 pos)) eqn:Ex;
    destruct (Rleb (y1 pos) 0) eqn:Ey.
  all: try (apply Rleb_true in Ey); try (apply Rleb_false in Ey).
  all: repeat split; intros; try reflexivity; try lra.
  all: try (exfalso; tauto).
  all: try (assert (false = true) by (apply Hx; tauto); discriminate).
Qed.
End Walls.

(** ** [math.hypot] and [math.atan2] *)

Lemma hypot_nonneg (x y : R) : 0 <= math.hypot x y.
Proof. apply sqrt_pos. Qed.

Lemma hypot_sqr (x y : R) : math.hypot x y * math.hypot x y = x * x + y * y.
Proof. unfold math.hypot; apply sqrt_sqrt; nra. Qed.

Lemma hypot_zero_iff (x y : R) : math.hypot x y = 0 <-> x = 0 /\ y = 0.
Proof.
  split.
  - intros H. pose proof (hypot_sqr x y) as Hs. rewrite H in Hs. nra.
  - intros [-> ->]. unfold math.hypot.
    replace (0 * 0 + 0 * 0) with 0 by ring. apply sqrt_0.
Qed.

Lemma hypot_unique (x y m : R) : 0 <= m -> m * m = x * x + y * y -> math.hypot x y = m.
Proof.
  intros Hm Hmm. unfold math.hypot. rewrite <- Hmm. apply sqrt_square; assumption.
Qed.

Lemma hypot_scale (x y k : R) :
  math.hypot (x * k) (y * k) = Rabs k * math.hypot x y.
Proof.
  apply hypot_unique.
  - apply Rmult_le_pos; [apply Rabs_pos | apply hypot_nonneg].
  - transitivity ((Rabs k * Rabs k) * (math.hypot x y * math.hypot x y)); [ring |].
    rewrite hypot_sqr.
    replace (Rabs k * Rabs k) with (k * k); [ring |].
    unfold Rabs; destruct (Rcase_abs k); ring.
Qed.

Lemma hypot_neg_l (x y : R) : math.hypot (- x) y = math.hypot x y.
Proof. unfold math.hypot; f_equal; ring. Qed.

Lemma hypot_neg_r (x y : R) : math.hypot x (- y) = math.hypot x y.
Proof. unfold math.hypot; f_equal; ring. Qed.

Lemma hypot_sin_cos (s a : R) :
  math.hypot (s * sin a) (- Rabs (s * cos a)) = Rabs s.
Proof.
  apply hypot_unique; [apply Rabs_pos |].
  pose proof (sin2_cos2 a) as H. unfold Rsqr in H.
  replace (- Rabs (s * cos a) * - Rabs (s * cos a))
    with ((s * cos a) * (s * cos a))
    by (unfold Rabs; destruct (Rcase_abs (s * cos a)); ring).
  replace (Rabs s * Rabs s) with (s * s)
    by (unfold Rabs; destruct (Rcase_abs s); ring).
  nra.
Qed.

Lemma hypot_cos_sin (s a : R) :
  math.hypot (s * cos a) (- Rabs (s * sin a)) = Rabs s.
Proof.
  apply hypot_unique; [apply Rabs_pos |].
  pose proof (sin2_cos2 a) as H. unfold Rsqr in H.
  replace (- Rabs (s * sin a) * - Rabs (s * sin a))
    with ((s * sin a) * (s * sin a))
    by (unfold Rabs; destruct (Rcase_abs (s * sin a)); ring).
  replace (Rabs s * Rabs s) with (s * s)
    by (unfold Rabs; destruct (Rcase_abs s); ring).
  nra.
Qed.

(** A positive factor on both components leaves the direction as it is. *)
Lemma atan2_scale (y x k : R) : 0 < k -> math.atan2 (y * k) (x * k) = math.atan2 y x.
Proof.
  intros Hk. unfold math.atan2.
  assert (Hq : x <> 0 -> y * k / (x * k) = y / x) by (intros; field; lra).
  destruct (Rlt_dec 0 x) as [Hx | Hx]; destruct (Rlt_dec 0 (x * k)) as [Hxk | Hxk];
    try (exfalso; nra).
  - rewrite Hq by lra; reflexivity.
  - destruct (Rlt_dec x 0) as [Hx' | Hx']; destruct (Rlt_dec (x * k) 0) as [Hxk' | Hxk'];
      try (exfalso; nra).
    + destruct (Rle_dec 0 y) as [Hy | Hy]; destruct (Rle_dec 0 (y * k)) as [Hyk | Hyk];
        try (exfalso; nra); rewrite Hq by lra; reflexivity.
    + destruct (Rlt_dec 0 y) as [Hy | Hy]; destruct (Rlt_dec 0 (y * k)) as [Hyk | Hyk];
        try (exfalso; nra); try reflexivity.
      destruct (Rlt_dec y 0) as [Hy' | Hy']; destruct (Rlt_dec (y * k) 0) as [Hyk' | Hyk'];
        try (exfalso; nra); reflexivity.
Qed.

(** ** The paddle's [move_to] *)

(** The paddle of a new game, moved to the left edge of the field, is
    narrowed to half its width. *)
Lemma move_to_narrows_paddle :
  let p := Paddle.init 2 720 360 490 110 12 in
  let b' := Paddle.coords (Paddle.move_to 0 p) in
  x1 b' = 0 /\ x2 b' = 55 /\
  x2 b' - x1 b' <> Paddle.width (Paddle.move_to 0 p) /\
  (x1 b' + x2 b') / 2 <> 55.
Proof.
  cbv zeta. unfold Paddle.move_to, Paddle.coords, Paddle.init; simpl.
  assert (H1 : Rmax 0 (0 - 110 / 2) = 0) by (apply Rmax_left; lra).
  assert (H2 : Rmin 720 (0 + 110 / 2) = 55) by (rewrite Rmin_right; lra).
  rewrite H1, H2. repeat split; lra.
Qed.

(** C4, as the code has it.  [move_to] clips each edge on its own: the
    left edge is [max(0, x - half)], the right edge [min(field_width,
    x + half)].  For every [x] from [-half] to [field_width + half] both
    edges stay within the field; for [x] outside [half, field_width - half]
    the nearer edge lies exactly at its boundary; the full width is kept,
    with the centre at [x], when [x] lies in [half, field_width - half],
    and nearer to a wall the paddle is as wide as what is left of it
    inside the field. *)
Theorem move_to_clips_each_edge (p : Paddle.t) (x : R) :
  let half := Paddle.width p / 2 in
  let W := IZR (Paddle.canvas_width p) in
  let b' := Paddle.coords (Paddle.move_to x p) in
  0 <= half -> 0 <= W ->
  x1 b' = Rmax 0 (x - half) /\ x2 b' = Rmin W (x + half) /\
  y1 b' = y1 (Paddle.coords p) /\ y2 b' = y2 (Paddle.coords p) /\
  Paddle.width (Paddle.move_to x p) = Paddle.width p /\
  (- half <= x <= W + half -> 0 <= x1 b' <= x2 b' /\ x2 b' <= W) /\
  (x <= half -> x1 b' = 0) /\
  (W - half <= x -> x2 b' = W) /\
  (half <= x <= W - half ->
   x2 b' - x1 b' = Paddle.width p /\ (x1 b' + x2 b') / 2 = x) /\
  (- half <= x <= half -> x + half <= W -> x2 b' - x1 b' = x + half) /\
  (W - half <= x <= W + half -> 0 <= x - half -> x2 b' - x1 b' = W - (x - half)).
Proof.
  intros half W b' Hh HW. subst b'. unfold Paddle.move_to, Paddle.coords; simpl.
  fold half W.
  repeat split; try reflexivity; intros;
    unfold Rmax, Rmin;
    repeat match goal with
           | |- context [Rle_dec ?a ?b] => destruct (Rle_dec a b)
           end; unfold half in *; lra.
Qed.

Lemma move_to_clips_each_edge_witness :
  let p := Paddle.init 2 720 360 490 110 12 in
  x1 (Paddle.coords (Paddle.move_to 700 p)) = Rmax 0 (700 - 110 / 2) /\
  x2 (Paddle.coords (Paddle.move_to 700 p)) = 720.
Proof.
  cbv zeta.
  pose proof (move_to_clips_each_edge (Paddle.init 2 720 360 490 110 12) 700) as H.
  cbv zeta in H. simpl in H.
  destruct H as (Hx1 & _ & _ & _ & _ & _ & _ & Hx2 & _); [lra | lra |].
  split; [exact Hx1 | apply Hx2; lra].
Defined.

(** ** The ball's speed *)

Lemma set_speed_ok (s : R) (b : Ball.t) :
  math.hypot (Ball.vx b) (Ball.vy b) <> 0 ->
  Ball.set_speed s b =
  Ok (Ball.mk (Ball.item b) (Ball.box b) (Ball.radius b)
        (Ball.vx b * (s / math.hypot (Ball.vx b) (Ball.vy b)))
        (Ball.vy b * (s / math.hypot (Ball.vx b) (Ball.vy b))) s).
Proof. intros Hm. unfold Ball.set_speed. rewrite truediv_ok by assumption. reflexivity. Qed.

Lemma set_speed_rescales (s : R) (b : Ball.t) :
  math.hypot (Ball.vx b) (Ball.vy b) <> 0 -> 0 < s ->
  exists b', Ball.set_speed s b = Ok b' /\
    Ball.speed b' = s /\
    math.hypot (Ball.vx b') (Ball.vy b') = s /\
    math.atan2 (Ball.vy b') (Ball.vx b') = math.atan2 (Ball.vy b) (Ball.vx b) /\
    Ball.box b' = Ball.box b /\ Ball.radius b' = Ball.radius b /\
    Ball.item b' = Ball.item b.
Proof.
  intros Hm Hs. eexists. split; [apply set_speed_ok; assumption |]. simpl.
  pose proof (hypot_nonneg (Ball.vx b) (Ball.vy b)) as Hn.
  assert (Hk : 0 < s / math.hypot (Ball.vx b) (Ball.vy b)).
  { apply Rdiv_lt_0_compat; lra. }
  repeat split.
  - rewrite hypot_scale, Rabs_right by lra. field. assumption.
  - apply atan2_scale. assumption.
Qed.

(** A ball at rest: [set_speed] raises. *)
Lemma set_speed_at_rest_raises :
  let b := Ball.mk 3 (mkBox 352 452 368 468) 8 0 0 5 in
  math.hypot (Ball.vx b) (Ball.vy b) = 0 /\
  Ball.set_speed 6 b = Raise ZeroDivisionError /\
  Ball.set_speed 6 b <> Ok b.
Proof.
  cbv zeta.
  assert (H0 : math.hypot 0 0 = 0) by (apply hypot_zero_iff; split; reflexivity).
  split; [exact H0 |].
  assert (Hr : Ball.set_speed 6 (Ball.mk 3 (mkBox 352 452 368 468) 8 0 0 5)
               = Raise ZeroDivisionError).
  { unfold Ball.set_speed; simpl. rewrite H0, truediv_zero. reflexivity. }
  split; [exact Hr | rewrite Hr; discriminate].
Qed.

(** C3, as the code has it.  [set_speed] called while the velocity has
    magnitude zero raises [ZeroDivisionError], at the division and so before
    any attribute of the ball is assigned; for every call with a non-zero
    magnitude (and a positive new speed, as all speeds of the game are) it
    returns, and the velocity has been rescaled to the new speed with its
    direction [atan2(vy, vx)] as before. *)
Theorem set_speed_raises_at_rest_else_rescales (s : R) (b : Ball.t) :
  (math.hypot (Ball.vx b) (Ball.vy b) = 0 ->
   Ball.set_speed s b = Raise ZeroDivisionError) /\
  (math.hypot (Ball.vx b) (Ball.vy b) <> 0 -> 0 < s ->
   exists b', Ball.set_speed s b = Ok b' /\
     Ball.speed b' = s /\
     math.hypot (Ball.vx b') (Ball.vy b') = s /\
     math.atan2 (Ball.vy b') (Ball.vx b') = math.atan2 (Ball.vy b) (Ball.vx b)).
Proof.
  split.
  - intros H0. unfold Ball.set_speed. rewrite H0, truediv_zero. reflexivity.
  - intros Hm Hs. destruct (set_speed_rescales s b Hm Hs) as (b' & H1 & H2 & H3 & H4 & _).
    exists b'. auto.
Qed.

Lemma set_speed_raises_at_rest_else_rescales_witness :
  exists b', Ball.set_speed 6 (Ball.mk 3 (mkBox 352 452 368 468) 8 3 (-4) 5) = Ok b' /\
    math.hypot (Ball.vx b') (Ball.vy b') = 6.
Proof.
  assert (H5 : math.hypot 3 (-4) = 5) by (apply hypot_unique; lra).
  destruct (set_speed_raises_at_rest_else_rescales 6
              (Ball.mk 3 (mkBox 352 452 368 468) 8 3 (-4) 5)) as [_ H].
  destruct H as (b' & H1 & _ & H3 & _).
  - simpl. rewrite H5. lra.
  - lra.
  - exists b'. split; assumption.
Defined.

(** C8.  [hypot(vx, vy) == speed] holds after each operation on the ball's
    velocity: after construction, after [set_speed] and [increase_speed]
    on a moving ball (which also keep the direction [atan2(vy, vx)]), after
    [bounce_x] and [bounce_y], and after the reflection by the paddle.
    Speeds are positive, as all speeds of the game are: 5 at construction,
    0.8 more at each level. *)
Theorem hypot_velocity_is_speed :
  (forall i x y r s angle, 0 <= s ->
     let b := Ball.init i x y r s angle in
     math.hypot (Ball.vx b) (Ball.vy b) = Ball.speed b) /\
  (forall s b, math.hypot (Ball.vx b) (Ball.vy b) <> 0 -> 0 < s ->
     exists b', Ball.set_speed s b = Ok b' /\
       math.hypot (Ball.vx b') (Ball.vy b') = Ball.speed b' /\
       math.atan2 (Ball.vy b') (Ball.vx b') = math.atan2 (Ball.vy b) (Ball.vx b)) /\
  (forall delta b, math.hypot (Ball.vx b) (Ball.vy b) <> 0 ->
     0 < Ball.speed b -> 0 <= delta ->
     exists b', Ball.increase_speed delta b = Ok b' /\
       math.hypot (Ball.vx b') (Ball.vy b') = Ball.speed b' /\
       math.atan2 (Ball.vy b') (Ball.vx b') = math.atan2 (Ball.vy b) (Ball.vx b)) /\
  (forall b, math.hypot (Ball.vx b) (Ball.vy b) = Ball.speed b ->
     math.hypot (Ball.vx (Ball.bounce_x b)) (Ball.vy (Ball.bounce_x b))
     = Ball.speed (Ball.bounce_x b) /\
     math.hypot (Ball.vx (Ball.bounce_y b)) (Ball.vy (Ball.bounce_y b))
     = Ball.speed (Ball.bounce_y b)) /\
  (forall pos g, BrickBreaker.paddle_hit pos g = true ->
     Paddle.width (BrickBreaker.paddle g) <> 0 ->
     0 <= Ball.speed (BrickBreaker.ball g) ->
     exists g', BrickBreaker.check_paddle pos g = Ok g' /\
       math.hypot (Ball.vx (BrickBreaker.ball g')) (Ball.vy (BrickBreaker.ball g'))
       = Ball.speed (BrickBreaker.ball g')).
Proof.
  repeat apply conj.
  - intros i x y r s angle Hs. cbv zeta. unfold Ball.init; simpl.
    rewrite hypot_cos_sin. apply Rabs_right; lra.
  - intros s b Hm Hs. destruct (set_speed_rescales s b Hm Hs) as (b' & H1 & H2 & H3 & H4 & _).
    exists b'. rewrite H2. auto.
  - intros delta b Hm Hs Hd. unfold Ball.increase_speed.
    destruct (set_speed_rescales (Ball.speed b + delta) b Hm) as (b' & H1 & H2 & H3 & H4 & _);
      [lra |].
    exists b'. rewrite H2. auto.
  - intros b Hb. unfold Ball.bounce_x, Ball.bounce_y; simpl.
    rewrite hypot_neg_l, hypot_neg_r. auto.
  - intros pos g Hhit Hw Hs. unfold BrickBreaker.check_paddle. rewrite Hhit.
    rewrite truediv_ok by lra. simpl. eexists. split; [reflexivity |]. simpl.
    rewrite hypot_sin_cos. apply Rabs_right; lra.
Qed.

Lemma hypot_velocity_is_speed_witness :
  math.hypot (Ball.vx (Ball.init 3 360 460 8 5 90)) (Ball.vy (Ball.init 3 360 460 8 5 90)) = 5.
Proof.
  destruct hypot_velocity_is_speed as [H _].
  apply (H 3%nat 360 460 8 5 90). lra.
Defined.

(** ** The paddle *)

Section PaddleBounce.
Import BrickBreaker.

Lemma paddle_hit_iff (pos : Box) (g : t) :
  paddle_hit pos g = true <->
  y1 (Paddle.coords (paddle g)) <= y2 pos /\
  x1 (Paddle.coords (paddle g)) <= x2 pos /\
  x1 pos <= x2 (Paddle.coords (paddle g)) /\
  0 < Ball.vy (ball g).
Proof.
  unfold paddle_hit. rewrite !andb_true_iff, !Rleb_true, Rltb_true. tauto.
Qed.

(** The reflection angle stays short of a right angle: the ball's centre
    is at most 8 beyond the paddle's edges, and 63/55 of 75 degrees is
    less than 90 degrees. *)
Lemma reflection_angle_bound (d : R) :
  -63 <= d <= 63 ->
  - (PI / 2) < d / (110 / 2) * math.radians 75 < PI / 2.
Proof.
  intros Hd. unfold math.radians. pose proof PI_RGT_0 as Hpi.
  replace (d / (110 / 2) * (75 * (PI / 180))) with (d * (PI / 132)) by field.
  split; nra.
Qed.

(** C1.  The paddle check of [check_collision] fires exactly when the
    ball's bottom edge has reached the paddle's top edge, the horizontal
    extents of ball and paddle overlap and the ball moves downward
    ([vy > 0]); otherwise it changes nothing.  When it fires, with
    [offset = (ball_center - paddle_center) / (paddle.width / 2)] and
    [angle = offset * radians(75)], the new velocity is
    [vx = speed * sin(angle)], [vy = - speed * cos(angle)]: it points
    upward ([vy < 0]), its magnitude is the current speed, and a strike
    at the exact centre of the paddle returns straight up ([vx = 0]).
    The geometry of the game is assumed: a positive speed, a ball 16
    wide, a paddle whose [width] is 110 and whose rectangle is no wider. *)
Theorem paddle_reflection_upward_at_speed (pos : Box) (g : t) :
  let pc := Paddle.coords (paddle g) in
  let s := Ball.speed (ball g) in
  let paddle_center := (x1 pc + x2 pc) / 2 in
  let ball_center := (x1 pos + x2 pos) / 2 in
  let offset := (ball_center - paddle_center) / (Paddle.width (paddle g) / 2) in
  let angle := offset * math.radians 75 in
  0 < s ->
  x2 pos - x1 pos = 16 ->
  Paddle.width (paddle g) = 110 ->
  x2 pc - x1 pc <= 110 ->
  (paddle_hit pos g = true <->
   y1 pc <= y2 pos /\ x1 pc <= x2 pos /\ x1 pos <= x2 pc /\ 0 < Ball.vy (ball g)) /\
  (paddle_hit pos g = false -> check_paddle pos g = Ok g) /\
  (paddle_hit pos g = true ->
   exists g',
     check_paddle pos g = Ok g' /\
     g' = set_ball g (Ball.set_velocity (ball g) (s * sin angle) (- (s * cos angle))) /\
     Ball.vx (ball g') = s * sin angle /\
     Ball.vy (ball g') = - (s * cos angle) /\
     Ball.vy (ball g') < 0 /\
     math.hypot (Ball.vx (ball g')) (Ball.vy (ball g')) = s /\
     (ball_center = paddle_center ->
      Ball.vx (ball g') = 0 /\ Ball.vy (ball g') = - s)).
Proof.
  intros pc s paddle_center ball_center offset angle Hs Hball Hw Hpw.
  split; [apply paddle_hit_iff |].
  split; [intros Hno; unfold check_paddle; rewrite Hno; reflexivity |].
  intros Hhit. pose proof Hhit as Hgeo. apply paddle_hit_iff in Hgeo.
  fold pc in Hgeo. destruct Hgeo as (_ & Hl & Hr & _).
  assert (Hd : -63 <= ball_center - paddle_center <= 63).
  { unfold ball_center, paddle_center. lra. }
  assert (Hang : - (PI / 2) < angle < PI / 2).
  { unfold angle, offset. rewrite Hw. apply reflection_angle_bound. exact Hd. }
  assert (Hcos : 0 < cos angle) by (apply cos_gt_0; lra).
  assert (Habs : Rabs (s * cos angle) = s * cos angle).
  { apply Rabs_right. apply Rle_ge. apply Rlt_le. apply Rmult_lt_0_compat; assumption. }
  assert (Hcp : check_paddle pos g =
                Ok (set_ball g (Ball.set_velocity (ball g)
                                  (s * sin angle) (- (s * cos angle))))).
  { unfold check_paddle. rewrite Hhit. rewrite truediv_ok by lra.
    simpl. fold pc. fold paddle_center ball_center offset angle s.
    rewrite Habs. reflexivity. }
  eexists. split; [exact Hcp |]. split; [reflexivity |]. simpl.
  split; [reflexivity |]. split; [reflexivity |].
  split; [| split].
  - assert (0 < s * cos angle) by (apply Rmult_lt_0_compat; assumption). lra.
  - rewrite <- Habs at 1. rewrite hypot_sin_cos. apply Rabs_right; lra.
  - intros Hc.
    assert (H0 : angle = 0).
    { unfold angle, offset. rewrite Hc, Hw. field. }
    rewrite H0, sin_0, cos_0. split; ring.
Qed.
End PaddleBounce.

Lemma paddle_reflection_upward_at_speed_witness :
  let g := BrickBreaker.mk 720 520 0 1 3 true false
             (Paddle.mk 2 (mkBox 305 484 415 496) 110 12 720)
             (Ball.mk 3 (mkBox 352 468 368 484) 8 3 4 5) [] 40 true in
  exists g', BrickBreaker.check_paddle (Ball.position (BrickBreaker.ball g)) g = Ok g' /\
    Ball.vx (BrickBreaker.ball g') = 0 /\ Ball.vy (BrickBreaker.ball g') = - 5.
Proof.
  cbv zeta.
  pose proof (paddle_reflection_upward_at_speed
                (mkBox 352 468 368 484)
                (BrickBreaker.mk 720 520 0 1 3 true false
                   (Paddle.mk 2 (mkBox 305 484 415 496) 110 12 720)
                   (Ball.mk 3 (mkBox 352 468 368 484) 8 3 4 5) [] 40 true)) as H.
  cbv zeta in H. simpl in H.
  destruct H as (Hiff & _ & Hhit); try lra.
  destruct Hhit as (g' & Hcp & _ & _ & _ & _ & _ & Hc).
  - apply Hiff. lra.
  - exists g'. split; [exact Hcp |]. apply Hc. lra.
Defined.

(** ** The level builder *)

Section LevelBuilder.
Import BrickBreaker.

Lemma range_length (n : Z) : length (range n) = Z.to_nat n.
Proof. unfold range. rewrite length_map, length_seq. reflexivity. Qed.

Lemma range_nth (n : Z) (i : nat) :
  (i < Z.to_nat n)%nat -> nth_error (range n) i = Some (Z.of_nat i).
Proof.
  intros Hi. unfold range. rewrite nth_error_map.
  rewrite nth_error_seq. 
  destruct (Nat.ltb_spec i (Z.to_nat n)); [reflexivity | lia].
Qed.

Lemma number_length (first : nat) (l : list (R * R * Z)) :
  length (number first l) = length l.
Proof.
  revert first; induction l as [| [[x y] h] l IH]; intros first; simpl;
    [reflexivity | rewrite IH; reflexivity].
Qed.

Lemma number_app (first : nat) (l l' : list (R * R * Z)) :
  number first (l ++ l') = number first l ++ number (first + length l) l'.
Proof.
  revert first; induction l as [| [[x y] h] l IH]; intros first; simpl.
  - rewrite Nat.add_0_r. reflexivity.
  - rewrite IH.
    replace (first + S (length l))%nat with (S first + length l)%nat by lia.
    reflexivity.
Qed.

Lemma number_nth (first : nat) (l : list (R * R * Z)) (i : nat) (x y : R) (h : Z) :
  nth_error l i = Some (x, y, h) ->
  nth_error (number first l) i = Some (Brick.init (first + i) x y h).
Proof.
  revert first i; induction l as [| [[x' y'] h'] l IH]; intros first i Hi.
  - destruct i; discriminate.
  - destruct i as [| i]; simpl in *.
    + injection Hi as -> -> ->. rewrite Nat.add_0_r. reflexivity.
    + rewrite (IH (S first) i Hi).
      replace (S first + i)%nat with (first + S i)%nat by lia. reflexivity.
Qed.

Lemma number_items_from (first : nat) (l : list (R * R * Z)) (b : Brick.t) :
  In b (number first l) -> (first <= Brick.item b < first + length l)%nat.
Proof.
  revert first; induction l as [| [[x y] h] l IH]; intros first Hb; simpl in *.
  - contradiction.
  - destruct Hb as [<- | Hb]; [simpl; lia |].
    apply IH in Hb. lia.
Qed.

(** The rows of a grid: position [i * length cs + j] holds row [i],
    column [j]. *)
Lemma grid_nth {A B C : Type} (f : A -> B -> C) (rs : list A) (cs : list B)
      (i j : nat) (r : A) (c : B) :
  nth_error rs i = Some r -> nth_error cs j = Some c ->
  nth_error (flat_map (fun r => map (f r) cs) rs) (i * length cs + j) = Some (f r c).
Proof.
  revert i; induction rs as [| r0 rs IH]; intros i Hr Hc.
  - destruct i; discriminate.
  - assert (Hj : (j < length cs)%nat) by (apply nth_error_Some; congruence).
    destruct i as [| i]; simpl in *.
    + injection Hr as ->.
      rewrite nth_error_app1 by (rewrite length_map; lia).
      rewrite nth_error_map, Hc. reflexivity.
    + rewrite nth_error_app2 by (rewrite length_map; lia).
      rewrite length_map.
      replace (length cs + i * length cs + j - length cs)%nat
        with (i * length cs + j)%nat by lia.
      apply IH; assumption.
Qed.

Lemma grid_length {A B C : Type} (f : A -> B -> C) (rs : list A) (cs : list B) :
  length (flat_map (fun r => map (f r) cs) rs) = (length rs * length cs)%nat.
Proof.
  induction rs as [| r rs IH]; simpl; [reflexivity |].
  rewrite length_app, length_map, IH. reflexivity.
Qed.

Lemma layout_length (w lvl : Z) :
  length (layout w lvl) = (Z.to_nat (Z.min 6 (3 + lvl)) * 8)%nat.
Proof. unfold layout. rewrite grid_length, !range_length. reflexivity. Qed.

(** Appending the bricks of a list of places, one canvas item each. *)
Lemma append_bricks (l : list (R * R * Z)) (g : t) :
  fold_left (fun g p => append_brick (fst (fst p)) (snd (fst p)) (snd p) g) l g =
  mk (width g) (height g) (score g) (level g) (lives g) (started g) (paused g)
     (paddle g) (ball g) (bricks g ++ number (next_item g) l)
     (next_item g + length l) (scheduled g).
Proof.
  revert g; induction l as [| [[x y] h] l IH]; intros g; simpl.
  - rewrite app_nil_r, Nat.add_0_r. destruct g; reflexivity.
  - rewrite IH. unfold append_brick, create_item, set_bricks; simpl.
    rewrite <- app_assoc, Nat.add_succ_r. reflexivity.
Qed.

(** The two nested loops run through the grid in row-major order. *)
Lemma nested_loops {G A B C : Type} (step : G -> C -> G) (f : A -> B -> C)
      (rs : list A) (cs : list B) (g : G) :
  fold_left (fun g r => fold_left (fun g c => step g (f r c)) cs g) rs g =
  fold_left step (flat_map (fun r => map (f r) cs) rs) g.
Proof.
  revert g; induction rs as [| r rs IH]; intros g; simpl; [reflexivity |].
  rewrite fold_left_app, IH. f_equal.
  clear. revert g; induction cs as [| c cs IHc]; intros g; simpl;
    [reflexivity | apply IHc].
Qed.

Lemma build_level_layout (lvl : Z) (g : t) :
  build_level lvl g =
  mk (width g) (height g) (score g) (level g) (lives g) (started g) (paused g)
     (paddle g) (ball g) (number (next_item g) (layout (width g) lvl))
     (next_item g + length (layout (width g) lvl)) (scheduled g).
Proof.
  unfold build_level.
  rewrite (nested_loops
             (fun g p => append_brick (fst (fst p)) (snd (fst p)) (snd p) g)
             (place (width (set_bricks g [])) lvl)).
  rewrite append_bricks. reflexivity.
Qed.
End LevelBuilder.

Section LevelBuilderClaim.
Import BrickBreaker.

(** C7.  For every level number [lvl], [build_level lvl] drops every
    brick there was and produces exactly [rows * 8] bricks, with
    [rows = min(6, 3 + lvl)], all of them new canvas items, determined by
    [lvl] and the field width alone: the brick of row [r] and column [c]
    stands at index [r * 8 + c], centred at
    [x = 60 + spacing_x * c + spacing_x / 2], [y = 60 + r * 26], with
    [spacing_x = (width - 120) / 8], and has
    [min(3, 1 + (r + lvl) // 2)] hits.  (Below level -3 Python's
    [range(rows)] is empty; level numbers start at 1.) *)
Theorem build_level_grid (lvl : Z) (g : t) :
  (-3 <= lvl)%Z ->
  let rows := Z.min 6 (3 + lvl) in
  let spacing_x := IZR (width g - 120) / 8 in
  let g' := build_level lvl g in
  Z.of_nat (length (bricks g')) = (rows * 8)%Z /\
  (forall r c, (0 <= r < rows)%Z -> (0 <= c < 8)%Z ->
     exists b,
       nth_error (bricks g') (Z.to_nat (r * 8 + c)) = Some b /\
       b = Brick.init (next_item g + Z.to_nat (r * 8 + c))
             (60 + spacing_x * IZR c + spacing_x / 2) (IZR (60 + r * 26))
             (Z.min 3 (1 + (r + lvl) / 2)) /\
       Brick.hits b = Z.min 3 (1 + (r + lvl) / 2)) /\
  (forall b, In b (bricks g') -> (next_item g <= Brick.item b)%nat) /\
  g' = build_level lvl (set_bricks g []) /\
  bricks g' = number (next_item g) (layout (width g) lvl).
Proof.
  intros Hl rows spacing_x g'. subst g'.
  rewrite !build_level_layout. simpl.
  split; [| split; [| split; [| split]]].
  - rewrite number_length, layout_length. fold rows. lia.
  - intros r c Hr Hc. eexists. split; [| split; [reflexivity | reflexivity]].
    assert (Hi : nth_error (layout (width g) lvl) (Z.to_nat (r * 8 + c))
                 = Some (place (width g) lvl r c)).
    { unfold layout.
      replace (Z.to_nat (r * 8 + c))
        with (Z.to_nat r * length (range 8) + Z.to_nat c)%nat
        by (rewrite range_length; lia).
      replace (place (width g) lvl r c)
        with (place (width g) lvl (Z.of_nat (Z.to_nat r)) (Z.of_nat (Z.to_nat c)))
        by (rewrite !Z2Nat.id by lia; reflexivity).
      apply (grid_nth (place (width g) lvl)); apply range_nth; fold rows; lia. }
    unfold place in Hi. apply (number_nth (next_item g)) in Hi.
    exact Hi.
  - intros b Hb. apply number_items_from in Hb. lia.
  - reflexivity.
  - reflexivity.
Qed.
End LevelBuilderClaim.

Lemma build_level_grid_witness :
  let g := BrickBreaker.mk 720 520 0 1 3 false false
             (Paddle.mk 2 (mkBox 305 484 415 496) 110 12 720)
             (Ball.mk 3 (mkBox 352 452 368 468) 8 3 (-4) 5) [] 6 false in
  (-3 <= 1)%Z /\ Z.of_nat (length (BrickBreaker.bricks (BrickBreaker.build_level 1 g))) = 32%Z.
Proof.
  cbv zeta. split; [lia |].
  apply (build_level_grid 1
           (BrickBreaker.mk 720 520 0 1 3 false false
              (Paddle.mk 2 (mkBox 305 484 415 496) 110 12 720)
              (Ball.mk 3 (mkBox 352 452 368 468) 8 3 (-4) 5) [] 6 false)).
  lia.
Defined.

(** ** The bricks *)

Section BrickCollisions.
Import BrickBreaker.

Lemma hit_after_hit (b : Brick.t) :
  (if snd (Brick.hit b) then [] else [fst (Brick.hit b)]) = after_hit b /\
  (if snd (Brick.hit b) then 10 else 5)%Z = award b /\
  Brick.hits (fst (Brick.hit b)) = (Brick.hits b - 1)%Z /\
  (snd (Brick.hit b) = true <-> (Brick.hits b - 1 <= 0)%Z).
Proof.
  unfold Brick.hit, after_hit, award.
  destruct (Z.leb_spec (Brick.hits b - 1) 0); simpl; repeat split; intros; try lia;
    try discriminate.
Qed.

(** The scan of [self.bricks] passes the bricks drawn as other items and
    hits the first one drawn as [it]. *)
Lemma hit_item_found (pre rest : list Brick.t) (b : Brick.t) :
  ~ In (Brick.item b) (map Brick.item pre) ->
  hit_item (Brick.item b) (pre ++ b :: rest) =
  Some (snd (Brick.hit b), pre ++ after_hit b ++ rest).
Proof.
  intros Hpre. induction pre as [| p pre IH]; simpl.
  - rewrite Nat.eqb_refl. destruct (hit_after_hit b) as (Ha & _).
    rewrite <- Ha. destruct (Brick.hit b) as [b' d]; simpl. destruct d; reflexivity.
  - simpl in Hpre.
    destruct (Nat.eqb_spec (Brick.item p) (Brick.item b)) as [E | E]; [tauto |].
    rewrite IH by tauto. reflexivity.
Qed.

Lemma iter_opp_shift (k : nat) (v : R) :
  Nat.iter k Ropp (- v) = Nat.iter (S k) Ropp v.
Proof. induction k as [| k IH]; simpl in *; [reflexivity | rewrite IH; reflexivity]. Qed.

Variable touched : Brick.t -> bool.

(** The loop over the overlapping items, started when the bricks [pre]
    before the first of them are done. *)
Lemma collide_all (bs pre : list Brick.t) (g : t) :
  bricks g = pre ++ bs ->
  NoDup (map Brick.item (pre ++ bs)) ->
  fold_left collide (map Brick.item (filter touched bs)) g =
  mk (width g) (height g) (score g + points touched bs) (level g) (lives g)
     (started g) (paused g) (paddle g)
     (Ball.set_velocity (ball g) (Ball.vx (ball g))
        (Nat.iter (length (filter touched bs)) Ropp (Ball.vy (ball g))))
     (pre ++ hit_all touched bs) (next_item g) (scheduled g).
Proof.
  revert pre g. induction bs as [| b bs IH]; intros pre g Hg Hnd.
  - simpl. rewrite Z.add_0_r, <- Hg. destruct g as [? ? ? ? ? ? ? ? bl ? ? ?].
    destruct bl; reflexivity.
  - simpl. destruct (touched b) eqn:Eb.
    + simpl.
      assert (Hpre : ~ In (Brick.item b) (map Brick.item pre)).
      { rewrite map_app in Hnd. simpl in Hnd. apply NoDup_remove_2 in Hnd.
        intros Hin. apply Hnd. apply in_or_app. left. exact Hin. }
      assert (Hc : collide g (Brick.item b) =
                   mk (width g) (height g) (score g + award b) (level g) (lives g)
                      (started g) (paused g) (paddle g) (Ball.bounce_y (ball g))
                      ((pre ++ after_hit b) ++ bs) (next_item g) (scheduled g)).
      { unfold collide. rewrite Hg, hit_item_found by exact Hpre.
        destruct (hit_after_hit b) as (_ & Hw & _). rewrite <- Hw.
        unfold set_ball, set_score, set_bricks; simpl.
        rewrite <- app_assoc. reflexivity. }
      rewrite Hc. rewrite (IH (pre ++ after_hit b)).
      * simpl. rewrite iter_opp_shift. simpl.
        rewrite <- app_assoc, <- Z.add_assoc. reflexivity.
      * reflexivity.
      * rewrite <- app_assoc. rewrite !map_app in *. simpl in Hnd.
        unfold after_hit. destruct (Brick.hits b - 1 <=? 0)%Z; simpl.
        -- apply NoDup_remove_1 in Hnd. exact Hnd.
        -- exact Hnd.
    + rewrite (IH (pre ++ [b])).
      * simpl. rewrite <- app_assoc. reflexivity.
      * rewrite <- app_assoc. exact Hg.
      * rewrite <- app_assoc. exact Hnd.
Qed.
End BrickCollisions.

Lemma NoDup_map_inj {A B : Type} (f : A -> B) (l : list A) (a b : A) :
  NoDup (map f l) -> In a l -> In b l -> f a = f b -> a = b.
Proof.
  induction l as [| x l IH]; intros Hnd Ha Hb Hf; [contradiction |].
  simpl in Hnd. inversion Hnd as [| ? ? Hx Hnd']; subst.
  destruct Ha as [-> | Ha]; destruct Hb as [-> | Hb].
  - reflexivity.
  - exfalso. apply Hx. rewrite Hf. apply in_map. exact Hb.
  - exfalso. apply Hx. rewrite <- Hf. apply in_map. exact Ha.
  - apply IH; assumption.
Qed.

Lemma hit_all_items (touched : Brick.t -> bool) (bs : list Brick.t) (i : nat) :
  In i (map Brick.item (hit_all touched bs)) ->
  exists b, In b bs /\ Brick.item b = i /\
            (touched b = false \/ (0 < Brick.hits b - 1)%Z).
Proof.
  induction bs as [| b bs IH]; simpl; [contradiction |].
  rewrite map_app, in_app_iff. intros [Hi | Hi].
  - exists b. split; [left; reflexivity |].
    destruct (touched b); simpl in Hi.
    + unfold after_hit in Hi. destruct (Z.leb_spec (Brick.hits b - 1) 0); simpl in Hi.
      * contradiction.
      * destruct Hi as [Hi | []]. split; [exact Hi | right; lia].
    + destruct Hi as [Hi | []]. split; [exact Hi | left; reflexivity].
  - destruct (IH Hi) as (b' & Hb' & Hid & Hc). exists b'. split; [right; exact Hb' | auto].
Qed.

Lemma iter_opp_pow (k : nat) (v : R) : Nat.iter k Ropp v = (-1) ^ k * v.
Proof. induction k as [| k IH]; simpl; [ring | rewrite IH; ring]. Qed.

Section BrickClaim.
Import BrickBreaker.
Variable overlapping : Box -> Box -> bool.

Lemma check_bricks_all (pos : Box) (g : t) :
  NoDup (map Brick.item (bricks g)) ->
  check_bricks overlapping pos g =
  mk (width g) (height g)
     (score g + points (fun b => overlapping pos (Brick.box b)) (bricks g))
     (level g) (lives g) (started g) (paused g) (paddle g)
     (Ball.set_velocity (ball g) (Ball.vx (ball g))
        (Nat.iter (length (filter (fun b => overlapping pos (Brick.box b)) (bricks g)))
           Ropp (Ball.vy (ball g))))
     (hit_all (fun b => overlapping pos (Brick.box b)) (bricks g))
     (next_item g) (scheduled g).
Proof.
  intros Hnd. unfold check_bricks, find_overlapping.
  apply (collide_all (fun b => overlapping pos (Brick.box b)) (bricks g) [] g);
    [reflexivity | exact Hnd].
Qed.

(** C2.  Every brick the ball overlaps in a tick, and not only the first,
    is hit exactly once: its hit count goes down by one; it is destroyed
    ([hit()] returns true, the brick leaves the active set, 10 points)
    exactly when the count reaches 0 or less, and otherwise it stays with
    the colour of its new tier and 5 points are awarded; the bricks the
    ball does not overlap stay as they are; and [vy] is negated once per
    brick processed, that is [k] times for [k] overlapping bricks.  The
    bricks are distinct canvas items. *)
Theorem every_overlapping_brick_is_hit_once (pos : Box) (g : t) :
  NoDup (map Brick.item (bricks g)) ->
  let touched := fun b => overlapping pos (Brick.box b) in
  let g' := check_bricks overlapping pos g in
  let k := length (filter touched (bricks g)) in
  bricks g' = hit_all touched (bricks g) /\
  score g' = (score g + points touched (bricks g))%Z /\
  Ball.vy (ball g') = Nat.iter k Ropp (Ball.vy (ball g)) /\
  Ball.vy (ball g') = (-1) ^ k * Ball.vy (ball g) /\
  Ball.vx (ball g') = Ball.vx (ball g) /\
  (forall b, In b (bricks g) -> touched b = true ->
     Brick.hits (fst (Brick.hit b)) = (Brick.hits b - 1)%Z /\
     (snd (Brick.hit b) = true <-> (Brick.hits b - 1 <= 0)%Z)) /\
  (forall b, In b (bricks g) -> touched b = true -> (Brick.hits b - 1 <= 0)%Z ->
     award b = 10%Z /\ ~ In (Brick.item b) (map Brick.item (bricks g'))) /\
  (forall b, In b (bricks g) -> touched b = true -> (0 < Brick.hits b - 1)%Z ->
     award b = 5%Z /\
     In (Brick.mk (Brick.item b) (Brick.box b) (Brick.COLORS_get (Brick.hits b - 1))
           (Brick.width b) (Brick.height b) (Brick.hits b - 1)) (bricks g')) /\
  (forall b, In b (bricks g) -> touched b = false -> In b (bricks g')).
Proof.
  intros Hnd touched g' k. subst g'. rewrite check_bricks_all by exact Hnd. simpl.
  fold touched. fold k.
  split; [reflexivity |]. split; [reflexivity |]. split; [reflexivity |].
  split; [apply iter_opp_pow |]. split; [reflexivity |].
  split; [| split; [| split]].
  - intros b _ _. destruct (hit_after_hit b) as (_ & _ & H1 & H2). split; assumption.
  - intros b Hb Ht Hh. split.
    + unfold award. destruct (Z.leb_spec (Brick.hits b - 1) 0); [reflexivity | lia].
    + intros Hin. apply hit_all_items in Hin. destruct Hin as (b' & Hb' & Hid & Hc).
      assert (b' = b) by (apply (NoDup_map_inj Brick.item (bricks g)); assumption).
      subst b'. destruct Hc as [Hc | Hc]; [congruence | lia].
  - intros b Hb Ht Hh. split.
    + unfold award. destruct (Z.leb_spec (Brick.hits b - 1) 0); [lia | reflexivity].
    + unfold hit_all. apply in_flat_map. exists b. split; [exact Hb |].
      rewrite Ht. unfold after_hit.
      destruct (Z.leb_spec (Brick.hits b - 1) 0); [lia | left; reflexivity].
  - intros b Hb Ht. unfold hit_all. apply in_flat_map. exists b. split; [exact Hb |].
    rewrite Ht. left; reflexivity.
Qed.
End BrickClaim.

Lemma every_overlapping_brick_is_hit_once_witness :
  let g := BrickBreaker.mk 720 520 0 1 3 true false
             (Paddle.mk 2 (mkBox 305 484 415 496) 110 12 720)
             (Ball.mk 3 (mkBox 127 65 143 81) 8 3 (-4) 5)
             [Brick.init 6 (975 / 10) 60 1; Brick.init 7 (1725 / 10) 60 3] 8 true in
  let g' := BrickBreaker.check_bricks box_overlap (Ball.position (BrickBreaker.ball g)) g in
  NoDup (map Brick.item (BrickBreaker.bricks g)) /\
  BrickBreaker.score g' = 15%Z /\
  Ball.vy (BrickBreaker.ball g') = -4 /\
  map Brick.hits (BrickBreaker.bricks g') = [2%Z].
Proof.
  cbv zeta.
  assert (Hnd : NoDup [6%nat; 7%nat]).
  { constructor; [simpl; intros [H | []]; discriminate |].
    constructor; [simpl; tauto | constructor]. }
  split; [exact Hnd |].
  pose proof (every_overlapping_brick_is_hit_once box_overlap
                (mkBox 127 65 143 81)
                (BrickBreaker.mk 720 520 0 1 3 true false
                   (Paddle.mk 2 (mkBox 305 484 415 496) 110 12 720)
                   (Ball.mk 3 (mkBox 127 65 143 81) 8 3 (-4) 5)
                   [Brick.init 6 (975 / 10) 60 1; Brick.init 7 (1725 / 10) 60 3] 8 true)
                Hnd) as H.
  cbv zeta in H. destruct H as (Hb & Hs & Hv & _).
  assert (T6 : box_overlap (mkBox 127 65 143 81) (Brick.box (Brick.init 6 (975 / 10) 60 1)) = true).
  { unfold box_overlap. rewrite !andb_true_iff, !Rleb_true. simpl. lra. }
  assert (T7 : box_overlap (mkBox 127 65 143 81) (Brick.box (Brick.init 7 (1725 / 10) 60 3)) = true).
  { unfold box_overlap. rewrite !andb_true_iff, !Rleb_true. simpl. lra. }
  simpl BrickBreaker.bricks in Hb, Hs, Hv. simpl BrickBreaker.ball in Hv.
  simpl BrickBreaker.score in Hs. simpl Ball.position.
  unfold hit_all in Hb. unfold points in Hs. simpl flat_map in Hb. simpl fold_right in Hs.
  simpl filter in Hv.
  simpl Brick.box in T6, T7.
  rewrite T6, T7 in Hb, Hs, Hv.
  rewrite Hb, Hs, Hv. simpl. repeat split. lra.
Defined.

(** ** Invariants of a session *)

Section Invariants.
Import BrickBreaker.

Lemma ball_ok_moving (b : Ball.t) :
  ball_ok b -> math.hypot (Ball.vx b) (Ball.vy b) <> 0 /\ 0 < Ball.speed b.
Proof. intros (Hh & Hs & _). rewrite Hh. lra. Qed.

Lemma ball_ok_bounce_x (b : Ball.t) : ball_ok b -> ball_ok (Ball.bounce_x b).
Proof.
  intros (Hh & Hs & Hx & Hy). unfold ball_ok, Ball.bounce_x; simpl.
  rewrite hypot_neg_l. auto.
Qed.

Lemma ball_ok_bounce_y (b : Ball.t) : ball_ok b -> ball_ok (Ball.bounce_y b).
Proof.
  intros (Hh & Hs & Hx & Hy). unfold ball_ok, Ball.bounce_y; simpl.
  rewrite hypot_neg_r. auto.
Qed.

Lemma ball_ok_iter_bounce (b : Ball.t) (k : nat) :
  ball_ok b ->
  ball_ok (Ball.set_velocity b (Ball.vx b) (Nat.iter k Ropp (Ball.vy b))).
Proof.
  intros (Hh & Hs & Hx & Hy). unfold ball_ok; simpl.
  repeat split; try assumption.
  rewrite <- Hh. clear. induction k as [| k IH]; simpl; [reflexivity |].
  rewrite hypot_neg_r. exact IH.
Qed.

Lemma ball_ok_canvas_move (b : Ball.t) (dx dy : R) :
  ball_ok b -> ball_ok (Ball.set_box b (canvas_move (Ball.box b) dx dy)).
Proof.
  intros (Hh & Hs & Hx & Hy). unfold ball_ok; simpl. repeat split; try assumption; lra.
Qed.

Lemma ball_ok_set_speed (b : Ball.t) (s : R) :
  ball_ok b -> 5 <= s ->
  exists b', Ball.set_speed s b = Ok b' /\ ball_ok b' /\
    Ball.speed b' = s /\ Ball.box b' = Ball.box b /\ Ball.item b' = Ball.item b /\
    Ball.radius b' = Ball.radius b /\
    math.atan2 (Ball.vy b') (Ball.vx b') = math.atan2 (Ball.vy b) (Ball.vx b) /\
    Ball.vx b' = Ball.vx b * (s / Ball.speed b) /\
    Ball.vy b' = Ball.vy b * (s / Ball.speed b).
Proof.
  intros Hb Hs. destruct (ball_ok_moving b Hb) as [Hm _].
  destruct (set_speed_rescales s b Hm) as (b' & H1 & H2 & H3 & H4 & H5 & H6 & H7); [lra |].
  exists b'. destruct Hb as (Hh & Hs' & Hx & Hy).
  split; [exact H1 |]. split.
  - unfold ball_ok. rewrite H5, H2, H3. auto.
  - repeat split; try assumption.
    all: rewrite set_speed_ok in H1 by exact Hm; injection H1 as <-; simpl;
      rewrite Hh; reflexivity.
Qed.

Lemma paddle_ok_move_to (h : Z) (x : R) (p : Paddle.t) :
  paddle_ok h p -> paddle_ok h (Paddle.move_to x p).
Proof.
  intros (Hw & Hb & Hy1 & Hy2). unfold paddle_ok, Paddle.move_to, Paddle.coords; simpl.
  repeat split; try assumption.
  pose proof (Rmin_r (IZR (Paddle.canvas_width p)) (x + Paddle.width p / 2)).
  pose proof (Rmax_r 0 (x - Paddle.width p / 2)).
  lra.
Qed.

Lemma game_ok_set_ball (g : t) (b : Ball.t) :
  game_ok g -> ball_ok b -> game_ok (set_ball g b).
Proof. unfold game_ok; simpl; tauto. Qed.

Lemma game_ok_set_paddle (g : t) (p : Paddle.t) :
  game_ok g -> paddle_ok (height g) p -> game_ok (set_paddle g p).
Proof. unfold game_ok; simpl; tauto. Qed.

Lemma game_ok_flags (g : t) (l lv : Z) (st pa sc : bool) :
  game_ok g ->
  game_ok (mk (width g) (height g) (score g) lv l st pa (paddle g) (ball g)
             (bricks g) (next_item g) sc).
Proof. unfold game_ok; simpl; tauto. Qed.

Lemma game_ok_create_item (g : t) : game_ok g -> game_ok (create_item g).
Proof.
  unfold game_ok; simpl. intros (Hb & Hp & H0 & H5 & Hnd & Hlt).
  refine (conj Hb (conj Hp (conj H0 (conj H5 (conj Hnd _))))).
  eapply Forall_impl; [| exact Hlt]. simpl. intros; lia.
Qed.

Lemma game_ok_mouse_move (x : Z) (g : t) : game_ok g -> game_ok (mouse_move x g).
Proof.
  intros Hg. unfold mouse_move.
  assert (Hg' : game_ok (set_paddle g (Paddle.move_to (IZR x) (paddle g)))).
  { apply game_ok_set_paddle; [exact Hg |]. apply paddle_ok_move_to. apply Hg. }
  destruct (negb (started (set_paddle g (Paddle.move_to (IZR x) (paddle g))))
            && negb (paused (set_paddle g (Paddle.move_to (IZR x) (paddle g)))));
    [| exact Hg'].
  apply game_ok_set_ball; [exact Hg' |].
  apply ball_ok_canvas_move. apply Hg.
Qed.

Lemma game_ok_keyboard_move (d : Z) (g : t) : game_ok g -> game_ok (keyboard_move d g).
Proof.
  intros Hg. unfold keyboard_move.
  apply game_ok_set_paddle; [exact Hg |]. apply paddle_ok_move_to. apply Hg.
Qed.

Lemma game_ok_start_ball (g : t) : game_ok g -> game_ok (start_ball g).
Proof.
  intros Hg. unfold start_ball. destruct (negb (started g)); [| exact Hg].
  apply (game_ok_flags g (lives g) (level g) true (paused g) (scheduled g) Hg).
Qed.

Lemma game_ok_toggle_pause (g : t) : game_ok g -> game_ok (toggle_pause g).
Proof.
  intros Hg.
  apply (game_ok_flags g (lives g) (level g) (started g) (negb (paused g)) (scheduled g) Hg).
Qed.

(** *** The collisions of a tick *)

Lemma same_but_collisions_refl (g : t) : same_but_collisions g g.
Proof. unfold same_but_collisions; repeat split. Qed.

Lemma same_but_collisions_trans (g g' g'' : t) :
  same_but_collisions g g' -> same_but_collisions g' g'' -> same_but_collisions g g''.
Proof. unfold same_but_collisions; intros H H'; decompose [and] H; decompose [and] H';
       repeat split; congruence. Qed.

Lemma check_walls_ok (pos : Box) (g : t) :
  game_ok g ->
  game_ok (check_walls pos g) /\ same_but_collisions g (check_walls pos g) /\
  score (check_walls pos g) = score g /\ bricks (check_walls pos g) = bricks g.
Proof.
  intros Hg. unfold check_walls.
  destruct (Rleb (x1 pos) 0 || Rleb (IZR (width g)) (x2 pos));
    destruct (Rleb (y1 pos) 0); simpl.
  - split; [| split; [unfold same_but_collisions; simpl; repeat split | auto]].
    apply game_ok_set_ball.
    + apply game_ok_set_ball; [exact Hg | apply ball_ok_bounce_x; apply Hg].
    + apply ball_ok_bounce_y. simpl. apply ball_ok_bounce_x; apply Hg.
  - split; [| split; [unfold same_but_collisions; simpl; repeat split | auto]].
    apply game_ok_set_ball; [exact Hg | apply ball_ok_bounce_x; apply Hg].
  - split; [| split; [unfold same_but_collisions; simpl; repeat split | auto]].
    apply game_ok_set_ball; [exact Hg | apply ball_ok_bounce_y; apply Hg].
  - split; [exact Hg | split; [apply same_but_collisions_refl | auto]].
Qed.

Lemma check_paddle_ok (pos : Box) (g : t) :
  game_ok g ->
  exists g', check_paddle pos g = Ok g' /\ game_ok g' /\ same_but_collisions g g' /\
             score g' = score g /\ bricks g' = bricks g.
Proof.
  intros Hg. unfold check_paddle.
  destruct (paddle_hit pos g); [| exists g; repeat split; try apply Hg; reflexivity].
  destruct Hg as (Hb & Hp & Hrest). destruct Hp as (Hw & Hp').
  rewrite truediv_ok by (rewrite Hw; lra). simpl.
  eexists. split; [reflexivity |].
  split; [| split; [unfold same_but_collisions; simpl; repeat split | auto]].
  apply game_ok_set_ball; [unfold game_ok, paddle_ok; tauto |].
  destruct Hb as (Hh & Hs & Hx & Hy). unfold ball_ok; simpl.
  rewrite hypot_sin_cos, Rabs_right by lra. auto.
Qed.

Lemma points_nonneg_multiple (touched : Brick.t -> bool) (bs : list Brick.t) :
  (0 <= points touched bs)%Z /\ (5 | points touched bs)%Z.
Proof.
  induction bs as [| b bs [IH0 IH5]]; simpl.
  - split; [lia | apply Z.divide_0_r].
  - assert (Ha : (0 <= (if touched b then award b else 0))%Z
                 /\ (5 | (if touched b then award b else 0))%Z).
    { destruct (touched b); [| split; [lia | apply Z.divide_0_r]].
      unfold award. destruct (Brick.hits b - 1 <=? 0)%Z.
      - split; [lia | exists 2%Z; reflexivity].
      - split; [lia | exists 1%Z; reflexivity]. }
    destruct Ha as [Ha0 Ha5]. split; [lia | apply Z.divide_add_r; assumption].
Qed.

Lemma hit_all_NoDup (touched : Brick.t -> bool) (bs : list Brick.t) :
  NoDup (map Brick.item bs) -> NoDup (map Brick.item (hit_all touched bs)).
Proof.
  induction bs as [| b bs IH]; simpl; intros Hnd; [constructor |].
  inversion Hnd as [| ? ? Hb Hnd']; subst.
  assert (Hfresh : ~ In (Brick.item b) (map Brick.item (hit_all touched bs))).
  { intros Hin. apply hit_all_items in Hin. destruct Hin as (b' & Hb' & Hid & _).
    apply Hb. rewrite <- Hid. apply in_map. exact Hb'. }
  rewrite map_app.
  destruct (touched b); [unfold after_hit; destruct (Brick.hits b - 1 <=? 0)%Z |]; simpl.
  - apply IH; exact Hnd'.
  - constructor; [exact Hfresh | apply IH; exact Hnd'].
  - constructor; [exact Hfresh | apply IH; exact Hnd'].
Qed.

Lemma hit_all_items_below (touched : Brick.t -> bool) (bs : list Brick.t) (n : nat) :
  Forall (fun b => (Brick.item b < n)%nat) bs ->
  Forall (fun b => (Brick.item b < n)%nat) (hit_all touched bs).
Proof.
  intros Hlt. apply Forall_forall. intros b' Hb'.
  assert (Hin : In (Brick.item b') (map Brick.item (hit_all touched bs)))
    by (apply in_map; exact Hb').
  apply hit_all_items in Hin. destruct Hin as (b & Hb & Hid & _).
  rewrite Forall_forall in Hlt. rewrite <- Hid. apply Hlt. exact Hb.
Qed.

Lemma number_items (first : nat) (l : list (R * R * Z)) :
  map Brick.item (number first l) = seq first (length l).
Proof.
  revert first; induction l as [| [[x y] h] l IH]; intros first; simpl;
    [reflexivity | rewrite IH; reflexivity].
Qed.

Lemma game_ok_build_level (lvl : Z) (g : t) : game_ok g -> game_ok (build_level lvl g).
Proof.
  intros (Hb & Hp & H0 & H5 & _ & _). rewrite build_level_layout.
  unfold game_ok; simpl.
  refine (conj Hb (conj Hp (conj H0 (conj H5 (conj _ _))))).
  - rewrite number_items. apply seq_NoDup.
  - apply Forall_forall. intros b Hin. apply number_items_from in Hin. lia.
Qed.

Lemma ball_ok_parked (b : Ball.t) (px h : R) :
  ball_ok b -> ball_ok (Ball.set_box b (mkBox (px - 8) (h - 60 - 8) (px + 8) (h - 60 + 8))).
Proof.
  intros (Hh & Hs & Hx & Hy). unfold ball_ok; simpl. repeat split; try assumption; lra.
Qed.

Lemma game_ok_park_ball (g : t) : game_ok g -> game_ok (park_ball g).
Proof.
  intros Hg. unfold park_ball. apply game_ok_set_ball; [exact Hg |].
  unfold parked. rewrite !plus_IZR, !minus_IZR. apply ball_ok_parked. apply Hg.
Qed.

(** *** The end of a tick *)

Lemma loop_level_bricks_left (g : t) :
  bricks g <> [] -> loop_level g = Ok (loop_end g).
Proof. unfold loop_level. destruct (bricks g); [congruence | reflexivity]. Qed.

Lemma loop_level_cleared (g : t) (b' : Ball.t) :
  bricks g = [] ->
  Ball.increase_speed (8 / 10) (ball g) = Ok b' ->
  loop_level g =
  Ok (loop_end (create_item (set_started
        (park_ball (build_level (level g + 1)
                      (set_ball (set_level g (level g + 1)) b'))) false))).
Proof.
  intros Hb Hs. unfold loop_level. rewrite Hb. cbv zeta.
  replace (Ball.increase_speed (8 / 10) (ball (set_level g (level g + 1))))
    with (Ok b') by (symmetry; exact Hs).
  reflexivity.
Qed.

Lemma loop_level_ok (g : t) :
  game_ok g ->
  exists g', loop_level g = Ok g' /\ game_ok g' /\
    lives g' = lives g /\ score g' = score g /\ scheduled g' = true.
Proof.
  intros Hg. destruct (bricks g) as [| b0 bs] eqn:Eb.
  - destruct (ball_ok_set_speed (ball g) (Ball.speed (ball g) + 8 / 10))
      as (b' & Hs & Hb' & _); [apply Hg | destruct Hg as ((_ & H5 & _) & _); lra |].
    rewrite (loop_level_cleared g b' Eb Hs). eexists. split; [reflexivity |].
    split; [| split; [| split]]; try reflexivity;
      try (simpl; rewrite build_level_layout; reflexivity).
    apply (game_ok_flags _ _ _ _ _ true).
    apply game_ok_create_item.
    apply (game_ok_flags _ _ _ false _ _).
    apply game_ok_park_ball. apply game_ok_build_level.
    apply game_ok_set_ball; [| exact Hb'].
    apply (game_ok_flags g (lives g) (level g + 1) (started g) (paused g) (scheduled g) Hg).
  - rewrite loop_level_bricks_left by congruence.
    eexists. split; [reflexivity |]. split; [| split; [| split]]; try reflexivity.
    apply (game_ok_flags g (lives g) (level g) (started g) (paused g) true Hg).
Qed.

Lemma loop_lives_no_miss (g : t) :
  y2 (Ball.position (ball g)) < IZR (height g) -> loop_lives g = loop_level g.
Proof.
  intros H. unfold loop_lives. apply Rleb_false in H. rewrite H. reflexivity.
Qed.

Lemma loop_lives_last_miss (g : t) :
  IZR (height g) <= y2 (Ball.position (ball g)) -> (lives g - 1 <= 0)%Z ->
  loop_lives g = Ok (game_over (set_lives g (lives g - 1))).
Proof.
  intros H Hl. unfold loop_lives. apply Rleb_true in H. rewrite H. simpl.
  destruct (Z.leb_spec (lives g - 1) 0); [reflexivity | lia].
Qed.

Lemma loop_lives_miss (g : t) :
  IZR (height g) <= y2 (Ball.position (ball g)) -> (0 < lives g - 1)%Z ->
  loop_lives g =
  loop_level (create_item (set_started (park_ball (set_lives g (lives g - 1))) false)).
Proof.
  intros H Hl. unfold loop_lives. apply Rleb_true in H. rewrite H. simpl.
  destruct (Z.leb_spec (lives g - 1) 0); [lia | reflexivity].
Qed.

Lemma game_ok_game_over (g : t) : game_ok g -> game_ok (game_over g).
Proof.
  intros Hg. unfold game_over.
  apply (game_ok_flags _ _ _ _ true _).
  apply (game_ok_flags _ _ _ false _ _).
  apply game_ok_create_item. apply game_ok_create_item. exact Hg.
Qed.

Lemma loop_lives_ok (g : t) :
  game_ok g -> scheduled g = false -> (1 <= lives g)%Z ->
  exists g', loop_lives g = Ok g' /\ game_ok g' /\ score g' = score g /\
    (lives g' <= lives g)%Z /\ (scheduled g' = true -> 1 <= lives g')%Z.
Proof.
  intros Hg Hsch Hl.
  destruct (Rle_dec (IZR (height g)) (y2 (Ball.position (ball g)))) as [Hm | Hm].
  - destruct (Z_le_gt_dec (lives g - 1) 0) as [Hz | Hz].
    + rewrite loop_lives_last_miss by assumption. eexists. split; [reflexivity |].
      split; [| split; [reflexivity | split; [simpl; lia |]]].
      * apply game_ok_game_over.
        apply (game_ok_flags g (lives g - 1) (level g) (started g) (paused g) (scheduled g) Hg).
      * simpl. rewrite Hsch. discriminate.
    + rewrite loop_lives_miss by (assumption || lia).
      destruct (loop_level_ok
                  (create_item (set_started (park_ball (set_lives g (lives g - 1))) false)))
        as (g' & Hr & Hok & Hlv & Hsc & Hs).
      { apply game_ok_create_item. apply (game_ok_flags _ _ _ false _ _).
        apply game_ok_park_ball.
        apply (game_ok_flags g (lives g - 1) (level g) (started g) (paused g) (scheduled g) Hg). }
      exists g'. split; [exact Hr |]. split; [exact Hok |].
      rewrite Hlv, Hsc. simpl. repeat split; lia.
  - rewrite loop_lives_no_miss by lra.
    destruct (loop_level_ok g Hg) as (g' & Hr & Hok & Hlv & Hsc & Hs).
    exists g'. split; [exact Hr |]. split; [exact Hok |].
    rewrite Hlv, Hsc. repeat split; lia.
Qed.
End Invariants.

(** ** Sessions *)

Section Session.
Import BrickBreaker.
Variable overlapping : Box -> Box -> bool.

Lemma check_bricks_ok (pos : Box) (g : t) :
  game_ok g ->
  game_ok (check_bricks overlapping pos g) /\
  same_but_collisions g (check_bricks overlapping pos g) /\
  score (check_bricks overlapping pos g) =
  (score g + points (fun b => overlapping pos (Brick.box b)) (bricks g))%Z.
Proof.
  intros (Hb & Hp & H0 & H5 & Hnd & Hlt).
  rewrite check_bricks_all by exact Hnd.
  destruct (points_nonneg_multiple (fun b => overlapping pos (Brick.box b)) (bricks g))
    as [Hp0 Hp5].
  split; [| split; [unfold same_but_collisions; simpl; repeat split | reflexivity]].
  unfold game_ok; simpl.
  refine (conj _ (conj Hp (conj _ (conj _ (conj _ _))))).
  - apply ball_ok_iter_bounce. exact Hb.
  - lia.
  - apply Z.divide_add_r; assumption.
  - apply hit_all_NoDup. exact Hnd.
  - apply hit_all_items_below. exact Hlt.
Qed.

Lemma check_collision_ok (g : t) :
  game_ok g ->
  exists g', check_collision overlapping g = Ok g' /\ game_ok g' /\
    same_but_collisions g g' /\
    score g' = (score g + points (fun b => overlapping (Ball.position (ball g)) (Brick.box b))
                                 (bricks g))%Z /\
    bricks g' = hit_all (fun b => overlapping (Ball.position (ball g)) (Brick.box b))
                        (bricks g).
Proof.
  intros Hg. unfold check_collision.
  destruct (check_walls_ok (Ball.position (ball g)) g Hg) as (Hw & Hfw & Hsw & Hbw).
  destruct (check_paddle_ok (Ball.position (ball g)) _ Hw) as (g1 & Hp & Hg1 & Hfp & Hsp & Hbp).
  rewrite Hp. simpl.
  destruct (check_bricks_ok (Ball.position (ball g)) g1 Hg1) as (Hg2 & Hfb & Hsb).
  eexists. split; [reflexivity |]. split; [exact Hg2 |].
  split; [| split].
  - eapply same_but_collisions_trans; [| exact Hfb].
    eapply same_but_collisions_trans; [exact Hfw | exact Hfp].
  - rewrite Hsb, Hsp, Hsw, Hbp, Hbw. reflexivity.
  - rewrite check_bricks_all by apply Hg1. simpl. rewrite Hbp, Hbw. reflexivity.
Qed.

(** The points of the tick that starts in [g]: those of the bricks the
    moved ball overlaps, when the game is playing. *)
Lemma loop_ok (g : t) :
  game_ok g -> (1 <= lives g)%Z ->
  exists g', loop overlapping g = Ok g' /\ game_ok g' /\
    (lives g' <= lives g)%Z /\ (scheduled g' = true -> 1 <= lives g')%Z /\
    score g' =
    (score g + if negb (paused g) && started g
               then points (fun b => overlapping (Ball.position (Ball.move (ball g)))
                                                 (Brick.box b)) (bricks g)
               else 0)%Z.
Proof.
  intros Hg Hl. unfold loop. simpl.
  destruct (negb (paused g) && started g).
  - assert (Hm : game_ok (set_ball (set_scheduled g false) (Ball.move (ball g)))).
    { apply game_ok_set_ball.
      - apply (game_ok_flags g (lives g) (level g) (started g) (paused g) false Hg).
      - apply ball_ok_canvas_move. apply Hg. }
    destruct (check_collision_ok _ Hm) as (g1 & Hc & Hg1 & Hf & Hs & _).
    rewrite Hc. simpl.
    destruct Hf as (_ & _ & _ & Hlv & _ & _ & _ & _ & Hsch & _).
    destruct (loop_lives_ok g1 Hg1) as (g' & Hr & Hg' & Hsc & Hle & Hsl).
    { rewrite Hsch. reflexivity. }
    { rewrite Hlv. exact Hl. }
    exists g'. split; [exact Hr |]. split; [exact Hg' |].
    rewrite Hsc, Hs. rewrite Hlv in Hle. simpl in *. auto.
  - eexists. split; [reflexivity |].
    split; [apply (game_ok_flags g (lives g) (level g) (started g) (paused g) true Hg) |].
    simpl. repeat split; lia.
Qed.

Lemma handle_ok (e : event) (g : t) :
  session_ok g ->
  exists g', handle overlapping e g = Ok g' /\ session_ok g' /\
             (score g <= score g')%Z.
Proof.
  intros (Hg & H3 & H1).
  destruct e; simpl.
  - eexists. split; [reflexivity |]. split; [| unfold mouse_move;
      destruct (negb _ && negb _); simpl; lia].
    split; [apply game_ok_mouse_move; exact Hg |].
    unfold mouse_move. destruct (negb _ && negb _); simpl; auto.
  - eexists. split; [reflexivity |]. split; [| simpl; lia].
    split; [apply game_ok_keyboard_move; exact Hg | simpl; auto].
  - eexists. split; [reflexivity |]. split; [| simpl; lia].
    split; [apply game_ok_keyboard_move; exact Hg | simpl; auto].
  - eexists. split; [reflexivity |]. split; [| unfold start_ball;
      destruct (negb (started g)); simpl; lia].
    split; [apply game_ok_start_ball; exact Hg |].
    unfold start_ball. destruct (negb (started g)); simpl; auto.
  - eexists. split; [reflexivity |]. split; [| simpl; lia].
    split; [apply game_ok_toggle_pause; exact Hg | simpl; auto].
  - destruct (scheduled g) eqn:Es.
    + destruct (loop_ok g Hg (H1 eq_refl)) as (g' & Hr & Hg' & Hle & Hs1 & Hsc).
      exists g'. split; [exact Hr |]. split; [split; [exact Hg' | split; [lia | exact Hs1]] |].
      rewrite Hsc.
      destruct (points_nonneg_multiple
                  (fun b => overlapping (Ball.position (Ball.move (ball g))) (Brick.box b))
                  (bricks g)) as [Hp0 _].
      destruct (negb (paused g) && started g); lia.
    + exists g. split; [reflexivity |]. split; [| lia].
      split; [exact Hg | split; [exact H3 | rewrite Es; discriminate]].
Qed.

(** A new game: the state [BrickBreaker()] leaves when its first call of
    [loop] has scheduled the next. *)
Lemma new_game_state (angle : R) :
  new_game overlapping angle =
  Ok (mk 720 520 0 1 3 false false
        (Paddle.init 2 720 (720 / 2) 490 110 12)
        (Ball.init 3 (720 / 2) 460 8 5 angle)
        (number 6 (layout 720 1)) 39 true).
Proof.
  unfold new_game, init. rewrite build_level_layout. reflexivity.
Qed.

Lemma new_game_ok (angle : R) (g : t) :
  new_game overlapping angle = Ok g -> session_ok g.
Proof.
  rewrite new_game_state. intros H.
  assert (Hg : g = mk 720 520 0 1 3 false false
                     (Paddle.init 2 720 (720 / 2) 490 110 12)
                     (Ball.init 3 (720 / 2) 460 8 5 angle)
                     (number 6 (layout 720 1)) 39 true) by congruence.
  subst g. clear H.
  pose proof (layout_length 720 1) as Hlen.
  remember (layout 720 1) as l eqn:El. clear El.
  unfold session_ok, game_ok; simpl.
  split; [| split; [lia | intros; lia]].
  split; [| split; [| split; [lia | split; [apply Z.divide_0_r | split]]]].
  - unfold ball_ok; simpl. rewrite hypot_cos_sin, Rabs_right by lra.
    repeat split; lra.
  - unfold paddle_ok; simpl. repeat split; lra.
  - rewrite number_items. apply seq_NoDup.
  - apply Forall_forall. intros b Hin. apply number_items_from in Hin.
    rewrite Hlen in Hin. simpl in Hin. lia.
Qed.

Lemma reachable_ok (g : t) : reachable overlapping g -> session_ok g.
Proof.
  induction 1 as [angle g _ Hnew | e g g' _ IH He].
  - apply (new_game_ok angle). exact Hnew.
  - destruct (handle_ok e g IH) as (g'' & He' & Hok & _).
    rewrite He in He'. injection He' as <-. exact Hok.
Qed.
End Session.

(** ** The score *)

Lemma points_by_count (touched : Brick.t -> bool) (bs : list Brick.t) :
  points touched bs =
  (10 * Z.of_nat (length (filter (fun b => touched b && (Brick.hits b - 1 <=? 0)%Z) bs))
   + 5 * Z.of_nat (length (filter (fun b => touched b && negb (Brick.hits b - 1 <=? 0)%Z) bs)))%Z.
Proof.
  induction bs as [| b bs IH]; [reflexivity |].
  cbn [points fold_right filter]. fold (points touched bs). rewrite IH. unfold award.
  destruct (touched b); destruct (Brick.hits b - 1 <=? 0)%Z;
    cbn [andb negb length]; rewrite ?Nat2Z.inj_succ; lia.
Qed.

Section ScoreClaim.
Import BrickBreaker.
Variable overlapping : Box -> Box -> bool.

(** C10.  In a session the score starts at 0 and an event changes it
    only by adding the points of a tick: 10 for each brick destroyed and
    5 for each brick hit that survives, among the bricks the ball
    overlaps after its move, when the game is playing; every other event
    leaves it as it is.  So in every state of a session the score is a
    non-negative multiple of 5, and it never goes down from one event to
    the next. *)
Theorem score_grows_by_tens_and_fives :
  (forall angle g, new_game overlapping angle = Ok g -> score g = 0%Z) /\
  (forall e g, reachable overlapping g ->
     let touched := fun b => overlapping (Ball.position (Ball.move (ball g))) (Brick.box b) in
     let destroyed :=
       length (filter (fun b => touched b && (Brick.hits b - 1 <=? 0)%Z) (bricks g)) in
     let survived :=
       length (filter (fun b => touched b && negb (Brick.hits b - 1 <=? 0)%Z) (bricks g)) in
     exists g', handle overlapping e g = Ok g' /\
       (score g <= score g')%Z /\
       score g' =
       (score g +
        match e with
        | Timer => if scheduled g && (negb (paused g) && started g)
                   then 10 * Z.of_nat destroyed + 5 * Z.of_nat survived else 0
        | _ => 0
        end)%Z) /\
  (forall g, reachable overlapping g -> (0 <= score g)%Z /\ (5 | score g)%Z).
Proof.
  split; [| split].
  - intros angle g. rewrite new_game_state. intros H.
    assert (Hs : score (mk 720 520 0 1 3 false false
                          (Paddle.init 2 720 (720 / 2) 490 110 12)
                          (Ball.init 3 (720 / 2) 460 8 5 angle)
                          (number 6 (layout 720 1)) 39 true) = score g) by congruence.
    rewrite <- Hs. reflexivity.
  - intros e g Hr touched destroyed survived.
    apply reachable_ok in Hr. destruct Hr as (Hg & H3 & H1).
    destruct e; cbn [handle].
    + eexists. split; [reflexivity |]. unfold mouse_move.
      destruct (negb _ && negb _); simpl; lia.
    + eexists. split; [reflexivity |]. simpl; lia.
    + eexists. split; [reflexivity |]. simpl; lia.
    + eexists. split; [reflexivity |]. unfold start_ball.
      destruct (negb (started g)); simpl; lia.
    + eexists. split; [reflexivity |]. simpl; lia.
    + destruct (scheduled g) eqn:Es; cbn [andb].
      * destruct (loop_ok overlapping g Hg (H1 eq_refl)) as (g' & Hl & _ & _ & _ & Hsc).
        exists g'. split; [exact Hl |].
        rewrite Hsc. fold touched. rewrite (points_by_count touched).
        fold destroyed survived.
        destruct (negb (paused g) && started g); lia.
      * exists g. split; [reflexivity | lia].
  - intros g Hr. apply reachable_ok in Hr. destruct Hr as ((_ & _ & H0 & H5 & _) & _).
    split; assumption.
Qed.
End ScoreClaim.

Lemma score_grows_by_tens_and_fives_witness :
  exists g, BrickBreaker.new_game box_overlap 90 = Ok g /\
            BrickBreaker.score g = 0%Z /\ (5 | BrickBreaker.score g)%Z.
Proof.
  eexists. split; [apply new_game_state |].
  destruct (score_grows_by_tens_and_fives box_overlap) as (H0 & _ & H5).
  split; [apply (H0 90); apply new_game_state |].
  apply H5. apply (BrickBreaker.reach_new box_overlap 90); [lra | apply new_game_state].
Defined.

(** ** Lives and levels *)

Section LivesAndLevels.
Import BrickBreaker.

Lemma parked_same (g g' : t) :
  paddle g' = paddle g -> height g' = height g -> parked g' = parked g.
Proof. intros Hp Hh. unfold parked. rewrite Hp, Hh. reflexivity. Qed.

Lemma parked_above_paddle (g : t) :
  paddle_ok (height g) (paddle g) ->
  y2 (parked g) = IZR (height g) - 52 /\
  y2 (parked g) < y1 (Paddle.coords (paddle g)).
Proof.
  intros (_ & _ & Hy1 & _). unfold parked, Paddle.coords; simpl.
  rewrite Hy1, plus_IZR, minus_IZR. split; lra.
Qed.

(** The end of a tick, lines 269-285. *)
Lemma loop_level_result (g : t) :
  game_ok g ->
  exists g', loop_level g = Ok g' /\
    scheduled g' = true /\ paused g' = paused g /\ paddle g' = paddle g /\
    height g' = height g /\ lives g' = lives g /\
    Ball.item (ball g') = Ball.item (ball g) /\
    math.atan2 (Ball.vy (ball g')) (Ball.vx (ball g'))
    = math.atan2 (Ball.vy (ball g)) (Ball.vx (ball g)) /\
    (bricks g <> [] -> g' = loop_end g) /\
    (bricks g = [] ->
     started g' = false /\ level g' = (level g + 1)%Z /\
     Ball.position (ball g') = parked g /\
     Ball.speed (ball g') = Ball.speed (ball g) + 8 / 10 /\
     Ball.vx (ball g') = Ball.vx (ball g) * ((Ball.speed (ball g) + 8 / 10) / Ball.speed (ball g)) /\
     Ball.vy (ball g') = Ball.vy (ball g) * ((Ball.speed (ball g) + 8 / 10) / Ball.speed (ball g)) /\
     bricks g' = number (next_item g) (layout (width g) (level g + 1))).
Proof.
  intros Hg. destruct (bricks g) as [| b0 bs] eqn:Eb.
  - destruct (ball_ok_set_speed (ball g) (Ball.speed (ball g) + 8 / 10))
      as (b' & Hs & Hb' & Hsp & Hbox & Hit & Hrad & Hat & Hvx & Hvy);
      [apply Hg | destruct Hg as ((_ & H5 & _) & _); lra |].
    rewrite (loop_level_cleared g b' Eb Hs). eexists. split; [reflexivity |].
    rewrite build_level_layout.
    cbn [loop_end create_item set_started park_ball set_scheduled set_ball set_level
         parked Ball.position Ball.set_box Paddle.coords
         scheduled paused paddle height lives ball bricks started level width
         next_item Ball.item Ball.box Ball.vx Ball.vy Ball.speed].
    split; [reflexivity |]. split; [reflexivity |]. split; [reflexivity |].
    split; [reflexivity |]. split; [reflexivity |]. split; [exact Hit |].
    split; [exact Hat |]. split; [intros Hne; exfalso; apply Hne; reflexivity |].
    intros _. split; [reflexivity |]. split; [reflexivity |]. split; [reflexivity |].
    split; [exact Hsp |]. split; [exact Hvx |]. split; [exact Hvy | reflexivity].
  - rewrite loop_level_bricks_left by congruence.
    eexists. split; [reflexivity |].
    unfold loop_end, set_scheduled.
    cbn [scheduled paused paddle height lives ball bricks started level width
         next_item Ball.item Ball.box Ball.vx Ball.vy Ball.speed].
    split; [reflexivity |]. split; [reflexivity |]. split; [reflexivity |].
    split; [reflexivity |]. split; [reflexivity |]. split; [reflexivity |].
    split; [reflexivity |]. split; [intros _; reflexivity |].
    intros He; discriminate He.
Qed.

(** The tick after its collisions, lines 253-285, when the game is not
    over. *)
Lemma loop_lives_result (g : t) :
  game_ok g ->
  (IZR (height g) <= y2 (Ball.position (ball g)) -> (0 < lives g - 1)%Z) ->
  exists g', loop_lives g = Ok g' /\
    scheduled g' = true /\ paused g' = paused g /\ paddle g' = paddle g /\
    height g' = height g /\
    Ball.item (ball g') = Ball.item (ball g) /\
    math.atan2 (Ball.vy (ball g')) (Ball.vx (ball g'))
    = math.atan2 (Ball.vy (ball g)) (Ball.vx (ball g)) /\
    (IZR (height g) <= y2 (Ball.position (ball g)) -> lives g' = (lives g - 1)%Z) /\
    (y2 (Ball.position (ball g)) < IZR (height g) -> lives g' = lives g) /\
    (IZR (height g) <= y2 (Ball.position (ball g)) \/ bricks g = [] ->
     started g' = false /\ Ball.position (ball g') = parked g) /\
    (bricks g <> [] ->
     level g' = level g /\ Ball.vx (ball g') = Ball.vx (ball g) /\
     Ball.vy (ball g') = Ball.vy (ball g) /\ Ball.speed (ball g') = Ball.speed (ball g)) /\
    (bricks g = [] ->
     level g' = (level g + 1)%Z /\
     Ball.speed (ball g') = Ball.speed (ball g) + 8 / 10 /\
     Ball.vy (ball g') = Ball.vy (ball g) * ((Ball.speed (ball g) + 8 / 10) / Ball.speed (ball g))).
Proof.
  intros Hg Hlives.
  destruct (Rle_dec (IZR (height g)) (y2 (Ball.position (ball g)))) as [Hm | Hm].
  - specialize (Hlives Hm). rewrite loop_lives_miss by assumption.
    set (g2 := create_item (set_started (park_ball (set_lives g (lives g - 1))) false)).
    assert (Hg2 : game_ok g2).
    { apply game_ok_create_item. apply (game_ok_flags _ _ _ false _ _).
      apply game_ok_park_ball.
      apply (game_ok_flags g (lives g - 1) (level g) (started g) (paused g) (scheduled g) Hg). }
    destruct (loop_level_result g2 Hg2)
      as (g' & Hr & Hsch & Hpa & Hpd & Hh & Hl & Hit & Hat & Hleft & Hclear).
    exists g'. split; [exact Hr |].
    assert (Hpk : parked g2 = parked g) by reflexivity.
    assert (Hbr : bricks g2 = bricks g) by reflexivity.
    split; [exact Hsch |]. split; [exact Hpa |]. split; [exact Hpd |].
    split; [exact Hh |]. split; [exact Hit |]. split; [exact Hat |].
    split; [intros _; exact Hl |]. split; [intros; lra |].
    split; [| split].
    + intros _. destruct (bricks g) as [| b0 bs] eqn:Eb.
      * destruct (Hclear Hbr) as (H1 & _ & H3 & _). split; [exact H1 | rewrite H3; exact Hpk].
      * rewrite (Hleft ltac:(rewrite Hbr; discriminate)). split; reflexivity.
    + intros Hne. rewrite (Hleft ltac:(rewrite Hbr; exact Hne)). repeat split.
    + intros He. destruct (Hclear ltac:(rewrite Hbr; exact He)) as (_ & H2 & _ & H4 & _ & H6 & _).
      split; [exact H2 | split; [exact H4 | exact H6]].
  - assert (Hlt : y2 (Ball.position (ball g)) < IZR (height g)) by lra.
    rewrite loop_lives_no_miss by exact Hlt.
    destruct (loop_level_result g Hg)
      as (g' & Hr & Hsch & Hpa & Hpd & Hh & Hl & Hit & Hat & Hleft & Hclear).
    exists g'. split; [exact Hr |].
    split; [exact Hsch |]. split; [exact Hpa |]. split; [exact Hpd |].
    split; [exact Hh |]. split; [exact Hit |]. split; [exact Hat |].
    split; [intros; lra |]. split; [intros _; exact Hl |].
    split; [| split].
    + intros [Hc | He]; [lra |]. destruct (Hclear He) as (H1 & _ & H3 & _). auto.
    + intros Hne. rewrite (Hleft Hne). repeat split.
    + intros He. destruct (Hclear He) as (_ & H2 & _ & H4 & _ & H6 & _).
      split; [exact H2 | split; [exact H4 | exact H6]].
Qed.
End LivesAndLevels.

(** ** Game over *)

Section GameOver.
Import BrickBreaker.
Variable overlapping : Box -> Box -> bool.

Lemma frozen_refl (g : t) : scheduled g = false -> frozen g g.
Proof. intros H. unfold frozen. repeat split; try reflexivity. exact H. Qed.

Lemma frozen_trans (g g' g'' : t) : frozen g g' -> frozen g' g'' -> frozen g g''.
Proof.
  unfold frozen. intros H H'. decompose [and] H. decompose [and] H'.
  repeat split; congruence.
Qed.

Lemma frozen_handle (e : event) (g : t) :
  scheduled g = false -> exists g', handle overlapping e g = Ok g' /\ frozen g g'.
Proof.
  intros Hs. destruct e; cbn [handle].
  - eexists. split; [reflexivity |]. unfold mouse_move.
    destruct (negb _ && negb _); unfold frozen; simpl;
      repeat split; try assumption; try reflexivity; lra.
  - eexists. split; [reflexivity |]. unfold frozen; simpl.
    repeat split; try assumption; reflexivity.
  - eexists. split; [reflexivity |]. unfold frozen; simpl.
    repeat split; try assumption; reflexivity.
  - eexists. split; [reflexivity |]. unfold start_ball.
    destruct (negb (started g)); unfold frozen; simpl;
      repeat split; try assumption; reflexivity.
  - eexists. split; [reflexivity |]. unfold frozen; simpl.
    repeat split; try assumption; reflexivity.
  - rewrite Hs. exists g. split; [reflexivity | apply frozen_refl; exact Hs].
Qed.

(** Once the loop is not scheduled, no sequence of events starts it
    again. *)
Lemma frozen_run (es : list event) (g : t) :
  scheduled g = false -> exists g', run overlapping es g = Ok g' /\ frozen g g'.
Proof.
  revert g. induction es as [| e es IH]; intros g Hs.
  - exists g. split; [reflexivity | apply frozen_refl; exact Hs].
  - destruct (frozen_handle e g Hs) as (g1 & H1 & F1).
    destruct (IH g1) as (g' & H' & F'); [apply F1 |].
    exists g'. split; [| eapply frozen_trans; eassumption].
    cbn [run]. rewrite H1. exact H'.
Qed.

Lemma phase_playing (g : t) :
  phase_of g = Playing -> scheduled g = true /\ paused g = false /\ started g = true.
Proof.
  unfold phase_of. destruct (scheduled g), (paused g), (started g); simpl;
    intros H; try discriminate H; auto.
Qed.

(** A tick of a playing game: the ball moves, the collisions are
    resolved and lines 253-285 follow. *)
Lemma tick_playing (g : t) :
  session_ok g -> phase_of g = Playing ->
  exists g1,
    check_collision overlapping (set_ball (set_scheduled g false) (Ball.move (ball g)))
    = Ok g1 /\
    handle overlapping Timer g = loop_lives g1 /\
    game_ok g1 /\
    same_but_collisions (set_ball (set_scheduled g false) (Ball.move (ball g))) g1.
Proof.
  intros (Hg & H3 & H1) Hp. apply phase_playing in Hp. destruct Hp as (Es & Ep & Est).
  assert (Hm : game_ok (set_ball (set_scheduled g false) (Ball.move (ball g)))).
  { apply game_ok_set_ball.
    - apply (game_ok_flags g (lives g) (level g) (started g) (paused g) false Hg).
    - apply ball_ok_canvas_move. apply Hg. }
  destruct (check_collision_ok overlapping _ Hm) as (g1 & Hc & Hg1 & Hf & _).
  exists g1. split; [exact Hc |]. split; [| split; assumption].
  cbn [handle]. rewrite Es. unfold loop.
  cbn [set_scheduled paused started]. rewrite Ep, Est. cbn [negb andb].
  change (ball (set_scheduled g false)) with (ball g).
  rewrite Hc. reflexivity.
Qed.

(** C6.  When, in a playing game, the ball's bottom edge has reached the
    field height after the move of a tick, the tick takes exactly one
    life.  If lives remain, the ball is put back above the paddle and
    the game waits for the start signal again; if none remains, the game
    is over: the loop is not scheduled again, and whatever events follow,
    no tick runs and lives, score, level, bricks and the ball's velocity
    stay as they are. *)
Theorem miss_takes_one_life (g : t) :
  session_ok g ->
  phase_of g = Playing ->
  IZR (height g) <= y2 (Ball.position (Ball.move (ball g))) ->
  exists g', handle overlapping Timer g = Ok g' /\
    lives g' = (lives g - 1)%Z /\
    ((0 < lives g')%Z ->
     phase_of g' = NotStarted /\
     paddle g' = paddle g /\
     Ball.position (ball g') = parked g /\
     y2 (Ball.position (ball g')) < y1 (Paddle.coords (paddle g'))) /\
    ((lives g' <= 0)%Z ->
     lives g' = 0%Z /\
     phase_of g' = GameOver /\
     forall es, exists g'',
       run overlapping es g' = Ok g'' /\ frozen g' g'' /\
       phase_of g'' = GameOver /\
       handle overlapping Timer g'' = Ok g'').
Proof.
  intros Hs Hp Hmiss.
  destruct (tick_playing g Hs Hp) as (g1 & _ & Ht & Hg1 & Hf).
  destruct Hs as (Hg & H3 & H1). apply phase_playing in Hp.
  destruct Hp as (Es & Ep & Est). specialize (H1 Es).
  destruct Hf as (_ & Hh & _ & Hlv & _ & Hpa & Hpd & _ & Hsch & _ & Hbox & _).
  cbn [set_ball set_scheduled height lives paused paddle scheduled ball] in Hh, Hlv, Hpa, Hpd, Hsch, Hbox.
  assert (Hmiss1 : IZR (height g1) <= y2 (Ball.position (ball g1))).
  { unfold Ball.position in *. rewrite Hh, Hbox. exact Hmiss. }
  rewrite Ht.
  destruct (Z_le_gt_dec (lives g1 - 1) 0) as [Hz | Hz].
  - rewrite loop_lives_last_miss by assumption.
    eexists. split; [reflexivity |].
    assert (Hsg : scheduled (game_over (set_lives g1 (lives g1 - 1))) = false)
      by exact Hsch.
    assert (Hlg : lives (game_over (set_lives g1 (lives g1 - 1))) = (lives g - 1)%Z).
    { cbn [game_over set_paused set_started create_item set_lives lives]. rewrite Hlv.
      reflexivity. }
    split; [exact Hlg |]. rewrite Hlg. split; [intros; lia |].
    intros _. split; [lia |].
    split; [unfold phase_of; rewrite Hsg; reflexivity |].
    intros es. destruct (frozen_run es _ Hsg) as (g'' & Hr & Hfz).
    exists g''. split; [exact Hr |]. split; [exact Hfz |].
    destruct Hfz as (Hs'' & _).
    split; [unfold phase_of; rewrite Hs''; reflexivity |].
    cbn [handle]. rewrite Hs''. reflexivity.
  - destruct (loop_lives_result g1 Hg1)
      as (g' & Hr & Hsc' & Hpa' & Hpd' & Hh' & _ & _ & Hl' & _ & Hpk & _);
      [intros _; lia |].
    exists g'. split; [exact Hr |].
    rewrite (Hl' Hmiss1), Hlv. split; [reflexivity |].
    split; [| intros; lia].
    intros _. destruct (Hpk (or_introl Hmiss1)) as (Hst & Hpos).
    split; [unfold phase_of; rewrite Hsc', Hpa', Hpa, Ep, Hst; reflexivity |].
    split; [rewrite Hpd', Hpd; reflexivity |].
    assert (Hpk1 : parked g1 = parked g) by (apply parked_same; assumption).
    split; [rewrite Hpos; exact Hpk1 |].
    rewrite Hpos, Hpk1, Hpd', Hpd.
    apply parked_above_paddle. apply Hg.
Qed.
End GameOver.

Lemma miss_takes_one_life_witness :
  let g := BrickBreaker.mk 720 520 0 1 1 true false
             (Paddle.mk 2 (mkBox 305 484 415 496) 110 12 720)
             (Ball.mk 3 (mkBox 100 500 116 516) 8 3 4 5)
             [Brick.init 6 (975 / 10) 60 1] 40 true in
  exists g', BrickBreaker.handle box_overlap BrickBreaker.Timer g = Ok g' /\
             BrickBreaker.lives g' = 0%Z /\
             BrickBreaker.phase_of g' = BrickBreaker.GameOver.
Proof.
  cbv zeta.
  destruct (miss_takes_one_life box_overlap
              (BrickBreaker.mk 720 520 0 1 1 true false
                 (Paddle.mk 2 (mkBox 305 484 415 496) 110 12 720)
                 (Ball.mk 3 (mkBox 100 500 116 516) 8 3 4 5)
                 [Brick.init 6 (975 / 10) 60 1] 40 true))
    as (g' & Hh & Hl & _ & Hover).
  - unfold session_ok, game_ok, ball_ok, paddle_ok; simpl.
    assert (H5 : math.hypot 3 4 = 5) by (apply hypot_unique; lra).
    rewrite H5.
    repeat split; try lra; try lia.
    + apply Z.divide_0_r.
    + constructor; [simpl; tauto | constructor].
    + constructor; [simpl; lia | constructor].
  - reflexivity.
  - simpl. lra.
  - exists g'. split; [exact Hh |]. simpl in Hl.
    destruct Hover as (H0 & Hph & _); [rewrite Hl; lia |].
    split; [exact H0 | exact Hph].
Defined.

(** ** The launch of the ball *)

Lemma launch_upward (angle : R) :
  30 <= angle <= 150 -> 0 < sin (math.radians angle).
Proof.
  intros Ha. pose proof PI_RGT_0 as Hpi. unfold math.radians.
  apply sin_gt_0; nra.
Qed.

(** Evaluates the comparisons of concrete coordinates. *)
Ltac compare_coordinates :=
  repeat match goal with
         | |- context [Rleb ?a ?b] =>
             first [ rewrite (proj2 (Rleb_true a b)) by (simpl; lra)
                   | rewrite (proj2 (Rleb_false a b)) by (simpl; lra) ]
         | |- context [Rltb ?a ?b] =>
             first [ rewrite (proj2 (Rltb_true a b)) by (simpl; lra)
                   | rewrite (proj2 (Rltb_false a b)) by (simpl; lra) ]
         end.

(** A ball that falls past the paddle with two lives to spare: the next
    wait for the start signal begins with the ball still heading down. *)
Lemma life_start_keeps_falling_ball :
  let g := BrickBreaker.mk 720 520 0 1 3 true false
             (Paddle.mk 2 (mkBox 305 484 415 496) 110 12 720)
             (Ball.mk 3 (mkBox 100 500 116 516) 8 3 4 5)
             [Brick.init 6 (975 / 10) 60 1] 40 true in
  BrickBreaker.phase_of g = BrickBreaker.Playing /\
  exists g', BrickBreaker.handle box_overlap BrickBreaker.Timer g = Ok g' /\
    BrickBreaker.lives g' = 2%Z /\
    BrickBreaker.phase_of g' = BrickBreaker.NotStarted /\
    Ball.vx (BrickBreaker.ball g') = 3 /\
    Ball.vy (BrickBreaker.ball g') = 4 /\
    ~ Ball.vy (BrickBreaker.ball g') < 0.
Proof.
  cbv zeta. split; [reflexivity |].
  set (gm := BrickBreaker.mk 720 520 0 1 3 true false
               (Paddle.mk 2 (mkBox 305 484 415 496) 110 12 720)
               (Ball.mk 3 (mkBox (100 + 3) (500 + 4) (116 + 3) (516 + 4)) 8 3 4 5)
               [Brick.init 6 (975 / 10) 60 1] 40 false).
  assert (Hw : BrickBreaker.check_walls (Ball.position (BrickBreaker.ball gm)) gm = gm).
  { unfold BrickBreaker.check_walls. compare_coordinates. reflexivity. }
  assert (Hp : BrickBreaker.check_paddle (Ball.position (BrickBreaker.ball gm)) gm = Ok gm).
  { unfold BrickBreaker.check_paddle, BrickBreaker.paddle_hit. compare_coordinates.
    reflexivity. }
  assert (Hb : BrickBreaker.check_bricks box_overlap
                 (Ball.position (BrickBreaker.ball gm)) gm = gm).
  { unfold BrickBreaker.check_bricks, BrickBreaker.find_overlapping.
    cbn [BrickBreaker.bricks gm filter]. unfold box_overlap.
    compare_coordinates. reflexivity. }
  assert (Hc : BrickBreaker.check_collision box_overlap gm = Ok gm).
  { unfold BrickBreaker.check_collision. rewrite Hw, Hp. cbn [bind]. rewrite Hb.
    reflexivity. }
  assert (Hl : BrickBreaker.loop_lives gm =
               Ok (BrickBreaker.loop_end
                     (BrickBreaker.create_item
                        (BrickBreaker.set_started
                           (BrickBreaker.park_ball
                              (BrickBreaker.set_lives gm (BrickBreaker.lives gm - 1)))
                           false)))).
  { rewrite loop_lives_miss; [| simpl; lra | simpl; lia].
    apply loop_level_bricks_left. simpl. discriminate. }
  eexists. split.
  - transitivity (g1 <- BrickBreaker.check_collision box_overlap gm ;;
                  BrickBreaker.loop_lives g1); [reflexivity |].
    rewrite Hc. cbn [bind]. exact Hl.
  - simpl. repeat split; try reflexivity; lra.
Qed.

Section LaunchClaim.
Import BrickBreaker.
Variable overlapping : Box -> Box -> bool.

(** C5, as the code has it.  Only a new game (the first, or one after a
    restart) creates a ball: it waits for the start signal with a
    velocity of magnitude 5 that points upward at the drawn angle, from
    30 to 150 degrees from the horizontal, so [vy < 0].  After a life
    lost with lives remaining and after a level completed, the same
    ball (the same canvas item) is put back above the paddle and the
    game waits for the start signal; the ball keeps the direction
    [atan2(vy, vx)] it had after the collisions of that tick: with
    bricks left its velocity is unchanged, and at a level completed it
    is rescaled to the speed plus 0.8.  Nothing makes [vy] negative
    there. *)
Theorem only_a_new_game_launches_at_random :
  (forall angle, 30 <= angle <= 150 ->
     exists g, new_game overlapping angle = Ok g /\
       phase_of g = NotStarted /\
       Ball.vx (ball g) = 5 * cos (math.radians angle) /\
       Ball.vy (ball g) = - (5 * sin (math.radians angle)) /\
       Ball.vy (ball g) < 0) /\
  (forall g, session_ok g -> phase_of g = Playing ->
     exists g1,
       check_collision overlapping (set_ball (set_scheduled g false) (Ball.move (ball g)))
       = Ok g1 /\
       ((IZR (height g) <= y2 (Ball.position (ball g1)) -> (0 < lives g - 1)%Z) ->
        exists g', handle overlapping Timer g = Ok g' /\
          Ball.item (ball g') = Ball.item (ball g) /\
          math.atan2 (Ball.vy (ball g')) (Ball.vx (ball g'))
          = math.atan2 (Ball.vy (ball g1)) (Ball.vx (ball g1)) /\
          (IZR (height g) <= y2 (Ball.position (ball g1)) \/ bricks g1 = [] ->
           phase_of g' = NotStarted /\ Ball.position (ball g') = parked g) /\
          (bricks g1 <> [] ->
           Ball.vx (ball g') = Ball.vx (ball g1) /\
           Ball.vy (ball g') = Ball.vy (ball g1) /\
           Ball.speed (ball g') = Ball.speed (ball g)) /\
          (bricks g1 = [] ->
           Ball.speed (ball g') = Ball.speed (ball g) + 8 / 10 /\
           Ball.vy (ball g')
           = Ball.vy (ball g1) * ((Ball.speed (ball g) + 8 / 10) / Ball.speed (ball g))))).
Proof.
  split.
  - intros angle Ha. eexists. split; [apply new_game_state |].
    cbn [ball Ball.init Ball.vx Ball.vy].
    pose proof (launch_upward angle Ha) as Hsin.
    assert (Habs : Rabs (5 * sin (math.radians angle)) = 5 * sin (math.radians angle))
      by (apply Rabs_right; nra).
    rewrite Habs.
    split; [reflexivity |]. split; [reflexivity |]. split; [reflexivity |]. nra.
  - intros g Hs Hp.
    destruct (tick_playing overlapping g Hs Hp) as (g1 & Hc & Ht & Hg1 & Hf).
    exists g1. split; [exact Hc |]. intros Hnot.
    apply phase_playing in Hp. destruct Hp as (Es & Ep & Est).
    destruct Hf as (_ & Hh & _ & Hlv & _ & Hpa & Hpd & _ & Hsch & Hit & Hbox & _ & Hsp).
    cbn [set_ball set_scheduled height lives paused paddle scheduled ball
         Ball.move Ball.set_box Ball.item Ball.speed]
      in Hh, Hlv, Hpa, Hpd, Hsch, Hit, Hsp.
    destruct (loop_lives_result g1 Hg1)
      as (g' & Hr & Hsc' & Hpa' & Hpd' & Hh' & Hit' & Hat' & _ & _ & Hpk & Hleft & Hclear).
    { rewrite Hh, Hlv. exact Hnot. }
    exists g'. split; [rewrite Ht; exact Hr |].
    split; [rewrite Hit'; exact Hit |]. split; [exact Hat' |].
    split; [| split].
    + intros Hcase. rewrite <- Hh in Hcase. destruct (Hpk Hcase) as (Hst & Hpos).
      split; [unfold phase_of; rewrite Hsc', Hpa', Hpa, Ep, Hst; reflexivity |].
      rewrite Hpos. apply parked_same; assumption.
    + intros Hne. destruct (Hleft Hne) as (_ & Hvx & Hvy & Hspd).
      rewrite Hspd, Hsp. auto.
    + intros He. destruct (Hclear He) as (_ & Hspd & Hvy).
      rewrite Hspd, Hvy, Hsp. auto.
Qed.
End LaunchClaim.

Lemma only_a_new_game_launches_at_random_witness :
  30 <= 90 <= 150 /\
  exists g, BrickBreaker.new_game box_overlap 90 = Ok g /\
            Ball.vy (BrickBreaker.ball g) < 0.
Proof.
  assert (Ha : 30 <= 90 <= 150) by lra.
  split; [exact Ha |].
  destruct (only_a_new_game_launches_at_random box_overlap) as [Hnew _].
  destruct (Hnew 90 Ha) as (g & Hg & _ & _ & _ & Hvy).
  exists g. split; assumption.
Defined.

Lemma walls_negate_regardless_of_direction_witness :
  let g := BrickBreaker.mk 720 520 0 1 3 true false
             (Paddle.mk 2 (mkBox 305 484 415 496) 110 12 720)
             (Ball.mk 3 (mkBox (-2) 200 14 216) 8 3 4 5) [] 40 true in
  Ball.vx (BrickBreaker.ball
             (BrickBreaker.check_walls (Ball.position (BrickBreaker.ball g)) g)) < 0.
Proof.
  cbv zeta.
  pose proof (walls_negate_regardless_of_direction
                (mkBox (-2) 200 14 216)
                (BrickBreaker.mk 720 520 0 1 3 true false
                   (Paddle.mk 2 (mkBox 305 484 415 496) 110 12 720)
                   (Ball.mk 3 (mkBox (-2) 200 14 216) 8 3 4 5) [] 40 true)) as H.
  cbv zeta in H. destruct H as (_ & _ & _ & _ & H).
  apply H; simpl; lra.
Defined.

(** * Further properties of the game *)

(** ** A brick over its hits *)

Lemma hit_times_hits (k : nat) (b : Brick.t) :
  Brick.hits (hit_times k b) = (Brick.hits b - Z.of_nat k)%Z.
Proof.
  induction k as [| k IH]; [simpl; lia |].
  change (hit_times (S k) b) with (fst (Brick.hit (hit_times k b))).
  destruct (hit_after_hit (hit_times k b)) as (_ & _ & H & _).
  rewrite H, IH. lia.
Qed.

Lemma awards_until_destroyed (n : nat) (b : Brick.t) :
  Brick.hits b = Z.of_nat (S n) -> awards (S n) b = (5 * Z.of_nat n + 10)%Z.
Proof.
  revert b. induction n as [| n IH]; intros b Hb.
  - cbn [awards]. unfold award. rewrite Hb. reflexivity.
  - cbn [awards] in *.
    destruct (hit_after_hit b) as (_ & _ & Hh & _).
    rewrite (IH (fst (Brick.hit b))) by (rewrite Hh; lia).
    unfold award. destruct (Z.leb_spec (Brick.hits b - 1) 0); lia.
Qed.

(** A brick that can take [n + 1] hits survives each of its first [n]
    hits, with one hit less and the colour of its new tier each time, and
    is destroyed by hit [n + 1]: [n] times 5 points, then 10. *)
Theorem brick_lasts_exactly_its_hits (n : nat) (b : Brick.t) :
  Brick.hits b = Z.of_nat (S n) ->
  (forall k, (k < n)%nat ->
     snd (Brick.hit (hit_times k b)) = false /\
     Brick.hits (hit_times (S k) b) = (Brick.hits b - Z.of_nat (S k))%Z /\
     Brick.fill (hit_times (S k) b)
     = Brick.COLORS_get (Brick.hits b - Z.of_nat (S k))) /\
  snd (Brick.hit (hit_times n b)) = true /\
  awards (S n) b = (5 * Z.of_nat n + 10)%Z.
Proof.
  intros Hb. split; [| split].
  - intros k Hk.
    pose proof (hit_times_hits k b) as Hk'.
    assert (Hs : snd (Brick.hit (hit_times k b)) = false).
    { destruct (hit_after_hit (hit_times k b)) as (_ & _ & _ & Hiff).
      destruct (snd (Brick.hit (hit_times k b))); [| reflexivity].
      assert ((Brick.hits (hit_times k b) - 1 <= 0)%Z) by (apply Hiff; reflexivity). lia. }
    split; [exact Hs |]. split; [apply hit_times_hits |].
    change (hit_times (S k) b) with (fst (Brick.hit (hit_times k b))).
    unfold Brick.hit in *.
    destruct (Z.leb_spec (Brick.hits (hit_times k b) - 1) 0); [discriminate Hs |].
    cbn [fst Brick.fill]. f_equal. lia.
  - destruct (hit_after_hit (hit_times n b)) as (_ & _ & _ & Hiff).
    apply Hiff. rewrite hit_times_hits. lia.
  - apply awards_until_destroyed. exact Hb.
Qed.

Lemma brick_lasts_exactly_its_hits_witness :
  snd (Brick.hit (hit_times 2 (Brick.init 6 (975 / 10) 60 3))) = true /\
  awards 3 (Brick.init 6 (975 / 10) 60 3) = 20%Z.
Proof.
  destruct (brick_lasts_exactly_its_hits 2 (Brick.init 6 (975 / 10) 60 3)) as (_ & H1 & H2).
  - reflexivity.
  - split; [exact H1 | exact H2].
Defined.



(** ** The paddle under pointer and keys *)

Ltac split_max_min :=
  unfold Rmax, Rmin;
  repeat match goal with
         | |- context [Rle_dec ?a ?b] => destruct (Rle_dec a b)
         end.

Lemma paddle_kept_move_to (x : R) (p : Paddle.t) :
  paddle_kept p -> 0 <= x <= IZR (Paddle.canvas_width p) ->
  paddle_kept (Paddle.move_to x p).
Proof.
  unfold paddle_kept, Paddle.move_to, Paddle.coords. cbn [Paddle.box Paddle.width Paddle.canvas_width x1 x2].
  intros (Hw & HW & _) Hx. rewrite Hw.
  split; [reflexivity |]. split; [exact HW |].
  split_max_min; lra.
Qed.

Lemma paddle_kept_step (d : R) (p : Paddle.t) :
  paddle_kept p -> d = 30 \/ d = -30 ->
  paddle_kept
    (Paddle.move_to ((x1 (Paddle.coords p) + x2 (Paddle.coords p)) / 2 + d) p).
Proof.
  unfold paddle_kept, Paddle.move_to, Paddle.coords. cbn [Paddle.box Paddle.width Paddle.canvas_width x1 x2].
  intros (Hw & HW & Hshape) Hd. rewrite Hw.
  split; [reflexivity |]. split; [exact HW |].
  destruct Hd as [-> | ->];
    destruct Hshape as [(H1 & H2 & H3) | [(H1 & H2) | (H1 & H2)]];
    split_max_min; lra.
Qed.

(** With the pointer inside the field and the arrow keys, the paddle
    stays inside the field and keeps at least 50 of its 110 width: it is
    at full width, or cut at the wall it touches. *)
Theorem paddle_stays_in_field_at_least_50_wide (g : BrickBreaker.t) :
  paddle_kept (BrickBreaker.paddle g) ->
  let W := IZR (Paddle.canvas_width (BrickBreaker.paddle g)) in
  let b := Paddle.coords (BrickBreaker.paddle g) in
  (0 <= x1 b /\ x2 b <= W /\ 50 <= x2 b - x1 b <= 110) /\
  paddle_kept (BrickBreaker.paddle (BrickBreaker.keyboard_move (-30) g)) /\
  paddle_kept (BrickBreaker.paddle (BrickBreaker.keyboard_move 30 g)) /\
  (forall x, 0 <= IZR x <= W ->
             paddle_kept (BrickBreaker.paddle (BrickBreaker.mouse_move x g))).
Proof.
  intros Hk W b. split; [| split; [| split]].
  - destruct Hk as (_ & HW & Hshape). fold W b in HW, Hshape.
    destruct Hshape as [(H1 & H2 & H3) | [(H1 & H2) | (H1 & H2)]]; lra.
  - unfold BrickBreaker.keyboard_move. cbn [BrickBreaker.paddle BrickBreaker.set_paddle].
    apply paddle_kept_step; [exact Hk | right; reflexivity].
  - unfold BrickBreaker.keyboard_move. cbn [BrickBreaker.paddle BrickBreaker.set_paddle].
    apply paddle_kept_step; [exact Hk | left; reflexivity].
  - intros x Hx.
    assert (Hp : BrickBreaker.paddle (BrickBreaker.mouse_move x g)
                 = Paddle.move_to (IZR x) (BrickBreaker.paddle g)).
    { unfold BrickBreaker.mouse_move. destruct (negb _ && negb _); reflexivity. }
    rewrite Hp. apply paddle_kept_move_to; assumption.
Qed.

Lemma paddle_stays_in_field_at_least_50_wide_witness :
  let g := BrickBreaker.mk 720 520 0 1 3 false false
             (Paddle.mk 2 (mkBox 0 484 55 496) 110 12 720)
             (Ball.mk 3 (mkBox 352 452 368 468) 8 3 (-4) 5) [] 40 true in
  paddle_kept (BrickBreaker.paddle (BrickBreaker.keyboard_move (-30) g)).
Proof.
  cbv zeta.
  apply (paddle_stays_in_field_at_least_50_wide
           (BrickBreaker.mk 720 520 0 1 3 false false
              (Paddle.mk 2 (mkBox 0 484 55 496) 110 12 720)
              (Ball.mk 3 (mkBox 352 452 368 468) 8 3 (-4) 5) [] 40 true)).
  unfold paddle_kept; simpl. split; [reflexivity |]. split; [lra |].
  right; left. lra.
Defined.

(** While the game waits for the start signal, the pointer carries the
    ball with the paddle: after [mouse_move] the ball is centred on the
    paddle, at the height and size it had and with its velocity; once
    started, or while paused, the pointer moves the paddle alone.  Score,
    lives, level and bricks are never touched. *)
Theorem waiting_ball_follows_paddle (x : Z) (g : BrickBreaker.t) :
  let g' := BrickBreaker.mouse_move x g in
  let pc := Paddle.coords (BrickBreaker.paddle g') in
  let bb := Ball.position (BrickBreaker.ball g) in
  let bb' := Ball.position (BrickBreaker.ball g') in
  BrickBreaker.paddle g' = Paddle.move_to (IZR x) (BrickBreaker.paddle g) /\
  BrickBreaker.score g' = BrickBreaker.score g /\
  BrickBreaker.lives g' = BrickBreaker.lives g /\
  BrickBreaker.level g' = BrickBreaker.level g /\
  BrickBreaker.bricks g' = BrickBreaker.bricks g /\
  (BrickBreaker.started g = false -> BrickBreaker.paused g = false ->
   (x1 bb' + x2 bb') / 2 = (x1 pc + x2 pc) / 2 /\
   x2 bb' - x1 bb' = x2 bb - x1 bb /\
   y1 bb' = y1 bb /\ y2 bb' = y2 bb /\
   Ball.vx (BrickBreaker.ball g') = Ball.vx (BrickBreaker.ball g) /\
   Ball.vy (BrickBreaker.ball g') = Ball.vy (BrickBreaker.ball g)) /\
  (BrickBreaker.started g = true \/ BrickBreaker.paused g = true ->
   BrickBreaker.ball g' = BrickBreaker.ball g).
Proof.
  cbv zeta. unfold BrickBreaker.mouse_move.
  cbn [BrickBreaker.started BrickBreaker.paused BrickBreaker.set_paddle].
  destruct (BrickBreaker.started g) eqn:Es; destruct (BrickBreaker.paused g) eqn:Ep;
    cbn [negb andb BrickBreaker.paddle BrickBreaker.set_paddle BrickBreaker.set_ball
         BrickBreaker.score BrickBreaker.lives BrickBreaker.level BrickBreaker.bricks
         BrickBreaker.ball Ball.position Ball.set_box Ball.box Ball.vx Ball.vy
         canvas_move x1 x2 y1 y2].
  all: split; [reflexivity |]; split; [reflexivity |]; split; [reflexivity |];
    split; [reflexivity |]; split; [reflexivity |]; split.
  all: try (intros; discriminate).
  all: try (intros _; reflexivity).
  - intros _ _. unfold Ball.position. repeat split; try reflexivity; lra.
  - intros [H | H]; discriminate H.
Qed.

Lemma waiting_ball_follows_paddle_witness :
  let g := BrickBreaker.mk 720 520 0 1 3 false false
             (Paddle.mk 2 (mkBox 305 484 415 496) 110 12 720)
             (Ball.mk 3 (mkBox 352 452 368 468) 8 3 (-4) 5) [] 40 true in
  let bb' := Ball.position (BrickBreaker.ball (BrickBreaker.mouse_move 100 g)) in
  let pc := Paddle.coords (BrickBreaker.paddle (BrickBreaker.mouse_move 100 g)) in
  (x1 bb' + x2 bb') / 2 = (x1 pc + x2 pc) / 2.
Proof.
  cbv zeta.
  destruct (waiting_ball_follows_paddle 100
              (BrickBreaker.mk 720 520 0 1 3 false false
                 (Paddle.mk 2 (mkBox 305 484 415 496) 110 12 720)
                 (Ball.mk 3 (mkBox 352 452 368 468) 8 3 (-4) 5) [] 40 true))
    as (_ & _ & _ & _ & _ & H & _).
  destruct H as (H & _); [reflexivity | reflexivity | exact H].
Defined.

(** ** Start, pause and the ticks in between *)

Lemma idle_tick (overlapping : Box -> Box -> bool) (g : BrickBreaker.t) :
  BrickBreaker.scheduled g = true ->
  BrickBreaker.paused g = true \/ BrickBreaker.started g = false ->
  BrickBreaker.handle overlapping BrickBreaker.Timer g = Ok g.
Proof.
  intros Hs Hidle. cbn [BrickBreaker.handle]. rewrite Hs. unfold BrickBreaker.loop.
  cbn [BrickBreaker.set_scheduled BrickBreaker.paused BrickBreaker.started].
  assert (Hc : negb (BrickBreaker.paused g) && BrickBreaker.started g = false).
  { destruct Hidle as [-> | ->]; [reflexivity | apply andb_false_r]. }
  rewrite Hc. destruct g. cbn in Hs. subst. reflexivity.
Qed.

Lemma idle_ticks (overlapping : Box -> Box -> bool) (n : nat) (es : list BrickBreaker.event)
      (g : BrickBreaker.t) :
  BrickBreaker.scheduled g = true ->
  BrickBreaker.paused g = true \/ BrickBreaker.started g = false ->
  BrickBreaker.run overlapping (repeat BrickBreaker.Timer n ++ es) g
  = BrickBreaker.run overlapping es g.
Proof.
  intros Hs Hidle. induction n as [| n IH]; [reflexivity |].
  cbn [repeat app BrickBreaker.run]. rewrite idle_tick by assumption. exact IH.
Qed.

(** While the game is paused or waits for the start signal, a tick of
    the timer changes nothing at all; and a game paused with [p], left for
    any number of ticks and resumed with [p], is exactly where it was. *)
Theorem pause_stops_the_game (overlapping : Box -> Box -> bool) (g : BrickBreaker.t) :
  BrickBreaker.scheduled g = true ->
  (BrickBreaker.paused g = true \/ BrickBreaker.started g = false ->
   BrickBreaker.handle overlapping BrickBreaker.Timer g = Ok g) /\
  (BrickBreaker.paused g = false ->
   forall n,
     BrickBreaker.run overlapping
       (BrickBreaker.KeyP :: repeat BrickBreaker.Timer n ++ [BrickBreaker.KeyP]) g
     = Ok g).
Proof.
  intros Hs. split; [apply idle_tick; exact Hs |].
  intros Hp n. cbn [BrickBreaker.run BrickBreaker.handle bind].
  rewrite idle_ticks; [| exact Hs | left; cbn; rewrite Hp; reflexivity].
  cbn [BrickBreaker.run BrickBreaker.handle bind].
  unfold BrickBreaker.toggle_pause, BrickBreaker.set_paused.
  cbn [BrickBreaker.paused BrickBreaker.width BrickBreaker.height BrickBreaker.score
       BrickBreaker.level BrickBreaker.lives BrickBreaker.started BrickBreaker.paddle
       BrickBreaker.ball BrickBreaker.bricks BrickBreaker.next_item BrickBreaker.scheduled].
  rewrite Bool.negb_involutive. destruct g; reflexivity.
Qed.

Lemma pause_stops_the_game_witness :
  let g := BrickBreaker.mk 720 520 0 1 3 true false
             (Paddle.mk 2 (mkBox 305 484 415 496) 110 12 720)
             (Ball.mk 3 (mkBox 352 300 368 316) 8 3 (-4) 5)
             [Brick.init 6 (975 / 10) 60 1] 40 true in
  BrickBreaker.run box_overlap
    [BrickBreaker.KeyP; BrickBreaker.Timer; BrickBreaker.Timer; BrickBreaker.KeyP] g
  = Ok g.
Proof.
  cbv zeta.
  destruct (pause_stops_the_game box_overlap
              (BrickBreaker.mk 720 520 0 1 3 true false
                 (Paddle.mk 2 (mkBox 305 484 415 496) 110 12 720)
                 (Ball.mk 3 (mkBox 352 300 368 316) 8 3 (-4) 5)
                 [Brick.init 6 (975 / 10) 60 1] 40 true)) as [_ H].
  - reflexivity.
  - apply (H eq_refl 2%nat).
Defined.

(** The keys and the phases: the start key takes a waiting game to
    playing and changes no other phase; the pause key pauses a playing or
    waiting game and resumes a paused one to where it was; no key leaves
    game over.  Pressing pause twice, or start twice, is as pressing it
    never, or once. *)
Theorem keys_and_phases (g : BrickBreaker.t) :
  BrickBreaker.phase_of (BrickBreaker.start_ball g)
  = match BrickBreaker.phase_of g with
    | BrickBreaker.NotStarted => BrickBreaker.Playing
    | p => p
    end /\
  BrickBreaker.phase_of (BrickBreaker.toggle_pause g)
  = match BrickBreaker.phase_of g with
    | BrickBreaker.GameOver => BrickBreaker.GameOver
    | BrickBreaker.Paused =>
        if BrickBreaker.started g then BrickBreaker.Playing else BrickBreaker.NotStarted
    | _ => BrickBreaker.Paused
    end /\
  BrickBreaker.toggle_pause (BrickBreaker.toggle_pause g) = g /\
  BrickBreaker.start_ball (BrickBreaker.start_ball g) = BrickBreaker.start_ball g.
Proof.
  destruct g as [w h sc lv li st pa pd bl bs ni sch].
  unfold BrickBreaker.phase_of, BrickBreaker.start_ball, BrickBreaker.toggle_pause.
  destruct st, pa, sch; cbn; repeat split; reflexivity.
Qed.

(** ** A tick without contact *)

Lemma filter_none {A : Type} (f : A -> bool) (l : list A) :
  (forall a, In a l -> f a = false) -> filter f l = [].
Proof.
  induction l as [| a l IH]; intros H; [reflexivity |].
  cbn [filter]. rewrite (H a) by (left; reflexivity).
  apply IH. intros b Hb. apply H. right. exact Hb.
Qed.

(** A playing tick in which the moved ball touches no wall, is not caught
    by the paddle, overlaps no brick and stays above the bottom, with
    bricks left, moves the ball by exactly [(vx, vy)] and changes nothing
    else. *)
Theorem free_flight_tick (overlapping : Box -> Box -> bool) (g : BrickBreaker.t) :
  let pos := Ball.position (Ball.move (BrickBreaker.ball g)) in
  let pc := Paddle.coords (BrickBreaker.paddle g) in
  BrickBreaker.phase_of g = BrickBreaker.Playing ->
  0 < x1 pos -> x2 pos < IZR (BrickBreaker.width g) -> 0 < y1 pos ->
  ~ (y1 pc <= y2 pos /\ x1 pc <= x2 pos /\ x1 pos <= x2 pc
     /\ 0 < Ball.vy (BrickBreaker.ball g)) ->
  (forall b, In b (BrickBreaker.bricks g) -> overlapping pos (Brick.box b) = false) ->
  y2 pos < IZR (BrickBreaker.height g) ->
  BrickBreaker.bricks g <> [] ->
  BrickBreaker.handle overlapping BrickBreaker.Timer g
  = Ok (BrickBreaker.set_ball g (Ball.move (BrickBreaker.ball g))) /\
  Ball.position (Ball.move (BrickBreaker.ball g))
  = canvas_move (Ball.position (BrickBreaker.ball g))
      (Ball.vx (BrickBreaker.ball g)) (Ball.vy (BrickBreaker.ball g)).
Proof.
  intros pos pc Hp Hx1 Hx2 Hy1 Hpad Hbr Hy2 Hne.
  split; [| reflexivity].
  apply phase_playing in Hp. destruct Hp as (Es & Ep & Est).
  set (gm := BrickBreaker.set_ball (BrickBreaker.set_scheduled g false)
               (Ball.move (BrickBreaker.ball g))).
  assert (Hw : BrickBreaker.check_walls pos gm = gm).
  { unfold BrickBreaker.check_walls.
    rewrite (proj2 (Rleb_false (x1 pos) 0)) by exact Hx1.
    rewrite (proj2 (Rleb_false (IZR (BrickBreaker.width gm)) (x2 pos))) by exact Hx2.
    rewrite (proj2 (Rleb_false (y1 pos) 0)) by exact Hy1. reflexivity. }
  assert (Hh : BrickBreaker.paddle_hit pos gm = false).
  { destruct (BrickBreaker.paddle_hit pos gm) eqn:E; [| reflexivity].
    apply paddle_hit_iff in E. exfalso. apply Hpad. exact E. }
  assert (Hc : BrickBreaker.check_collision overlapping gm = Ok gm).
  { unfold BrickBreaker.check_collision.
    change (Ball.position (BrickBreaker.ball gm)) with pos.
    rewrite Hw. unfold BrickBreaker.check_paddle. rewrite Hh. cbn [bind].
    unfold BrickBreaker.check_bricks, BrickBreaker.find_overlapping.
    rewrite filter_none by exact Hbr. reflexivity. }
  cbn [BrickBreaker.handle]. rewrite Es. unfold BrickBreaker.loop.
  cbn [BrickBreaker.set_scheduled BrickBreaker.paused BrickBreaker.started].
  rewrite Ep, Est. cbn [negb andb].
  change (BrickBreaker.ball (BrickBreaker.set_scheduled g false))
    with (BrickBreaker.ball g).
  fold gm. rewrite Hc. cbn [bind].
  rewrite loop_lives_no_miss by exact Hy2.
  rewrite loop_level_bricks_left by exact Hne.
  subst gm. destruct g. cbn in Es. subst. reflexivity.
Qed.

Lemma free_flight_tick_witness :
  let g := BrickBreaker.mk 720 520 0 1 3 true false
             (Paddle.mk 2 (mkBox 305 484 415 496) 110 12 720)
             (Ball.mk 3 (mkBox 352 300 368 316) 8 3 (-4) 5)
             [Brick.init 6 (975 / 10) 60 1] 40 true in
  BrickBreaker.handle box_overlap BrickBreaker.Timer g
  = Ok (BrickBreaker.set_ball g (Ball.move (BrickBreaker.ball g))).
Proof.
  cbv zeta.
  apply (free_flight_tick box_overlap
           (BrickBreaker.mk 720 520 0 1 3 true false
              (Paddle.mk 2 (mkBox 305 484 415 496) 110 12 720)
              (Ball.mk 3 (mkBox 352 300 368 316) 8 3 (-4) 5)
              [Brick.init 6 (975 / 10) 60 1] 40 true)).
  - reflexivity.
  - simpl; lra.
  - simpl; lra.
  - simpl; lra.
  - simpl; lra.
  - intros b [<- | []]. unfold box_overlap.
    rewrite !andb_false_iff, !Rleb_false. simpl. right. lra.
  - simpl; lra.
  - discriminate.
Defined.

(** ** What an event does to lives, level, speed and bricks *)

Lemma hit_all_untouched (bs : list Brick.t) : hit_all (fun _ => false) bs = bs.
Proof.
  induction bs as [| b bs IH]; [reflexivity |].
  cbn [hit_all flat_map]. fold (hit_all (fun _ => false) bs). rewrite IH. reflexivity.
Qed.

Lemma loop_level_effect (g : BrickBreaker.t) :
  game_ok g ->
  exists g', BrickBreaker.loop_level g = Ok g' /\
    BrickBreaker.width g' = BrickBreaker.width g /\
    BrickBreaker.scheduled g' = true /\
    BrickBreaker.lives g' = BrickBreaker.lives g /\
    BrickBreaker.score g' = BrickBreaker.score g /\
    (BrickBreaker.bricks g <> [] ->
     BrickBreaker.level g' = BrickBreaker.level g /\
     Ball.speed (BrickBreaker.ball g') = Ball.speed (BrickBreaker.ball g) /\
     BrickBreaker.bricks g' = BrickBreaker.bricks g) /\
    (BrickBreaker.bricks g = [] ->
     BrickBreaker.level g' = (BrickBreaker.level g + 1)%Z /\
     Ball.speed (BrickBreaker.ball g') = Ball.speed (BrickBreaker.ball g) + 8 / 10 /\
     BrickBreaker.started g' = false /\
     BrickBreaker.bricks g'
     = number (BrickBreaker.next_item g)
         (layout (BrickBreaker.width g) (BrickBreaker.level g + 1))).
Proof.
  intros Hg. destruct (BrickBreaker.bricks g) as [| b0 bs] eqn:Eb.
  - destruct (ball_ok_set_speed (BrickBreaker.ball g)
                (Ball.speed (BrickBreaker.ball g) + 8 / 10))
      as (b' & Hs & _ & Hsp & _); [apply Hg | destruct Hg as ((_ & H5 & _) & _); lra |].
    rewrite (loop_level_cleared g b' Eb Hs). eexists. split; [reflexivity |].
    rewrite build_level_layout.
    cbn [BrickBreaker.loop_end BrickBreaker.create_item BrickBreaker.set_started
         BrickBreaker.park_ball BrickBreaker.set_scheduled BrickBreaker.set_ball
         BrickBreaker.set_level Ball.set_box
         BrickBreaker.scheduled BrickBreaker.lives BrickBreaker.ball BrickBreaker.bricks
         BrickBreaker.started BrickBreaker.level BrickBreaker.width BrickBreaker.score
         BrickBreaker.next_item Ball.speed].
    split; [reflexivity |]. split; [reflexivity |]. split; [reflexivity |].
    split; [reflexivity |]. split; [intros Hne; exfalso; apply Hne; reflexivity |].
    intros _. split; [reflexivity |]. split; [exact Hsp |].
    split; reflexivity.
  - rewrite loop_level_bricks_left by congruence.
    eexists. split; [reflexivity |].
    cbn [BrickBreaker.loop_end BrickBreaker.set_scheduled BrickBreaker.scheduled
         BrickBreaker.lives BrickBreaker.ball BrickBreaker.bricks BrickBreaker.level
         BrickBreaker.width BrickBreaker.score].
    split; [reflexivity |]. split; [reflexivity |]. split; [reflexivity |].
    split; [reflexivity |]. split; [intros _; rewrite Eb; repeat split |].
    rewrite Eb. intros He; discriminate He.
Qed.

Lemma loop_lives_effect (g : BrickBreaker.t) :
  game_ok g -> (1 <= BrickBreaker.lives g)%Z -> BrickBreaker.scheduled g = false ->
  exists g', BrickBreaker.loop_lives g = Ok g' /\
    BrickBreaker.width g' = BrickBreaker.width g /\
    ((BrickBreaker.scheduled g' = true /\
      (1 <= BrickBreaker.lives g' <= BrickBreaker.lives g)%Z) \/
     (BrickBreaker.scheduled g' = false /\ BrickBreaker.lives g' = 0%Z)) /\
    ((BrickBreaker.level g' = BrickBreaker.level g /\
      Ball.speed (BrickBreaker.ball g') = Ball.speed (BrickBreaker.ball g) /\
      BrickBreaker.bricks g' = BrickBreaker.bricks g) \/
     (BrickBreaker.bricks g = [] /\
      BrickBreaker.level g' = (BrickBreaker.level g + 1)%Z /\
      Ball.speed (BrickBreaker.ball g') = Ball.speed (BrickBreaker.ball g) + 8 / 10 /\
      exists n, BrickBreaker.bricks g'
                = number n (layout (BrickBreaker.width g) (BrickBreaker.level g + 1)))).
Proof.
  intros Hg Hl Hs.
  assert (Hcases : forall g2, game_ok g2 ->
            BrickBreaker.width g2 = BrickBreaker.width g ->
            BrickBreaker.level g2 = BrickBreaker.level g ->
            Ball.speed (BrickBreaker.ball g2) = Ball.speed (BrickBreaker.ball g) ->
            BrickBreaker.bricks g2 = BrickBreaker.bricks g ->
            (1 <= BrickBreaker.lives g2 <= BrickBreaker.lives g)%Z ->
            exists g', BrickBreaker.loop_level g2 = Ok g' /\
              BrickBreaker.width g' = BrickBreaker.width g /\
              ((BrickBreaker.scheduled g' = true /\
                (1 <= BrickBreaker.lives g' <= BrickBreaker.lives g)%Z) \/
               (BrickBreaker.scheduled g' = false /\ BrickBreaker.lives g' = 0%Z)) /\
              ((BrickBreaker.level g' = BrickBreaker.level g /\
                Ball.speed (BrickBreaker.ball g') = Ball.speed (BrickBreaker.ball g) /\
                BrickBreaker.bricks g' = BrickBreaker.bricks g) \/
               (BrickBreaker.bricks g = [] /\
                BrickBreaker.level g' = (BrickBreaker.level g + 1)%Z /\
                Ball.speed (BrickBreaker.ball g')
                = Ball.speed (BrickBreaker.ball g) + 8 / 10 /\
                exists n, BrickBreaker.bricks g'
                          = number n (layout (BrickBreaker.width g)
                                             (BrickBreaker.level g + 1))))).
  { intros g2 Hg2 Hw2 Hlv2 Hsp2 Hbr2 Hli2.
    destruct (loop_level_effect g2 Hg2) as (g' & Hr & Hw & Hsch & Hli & _ & Hleft & Hclear).
    exists g'. split; [exact Hr |]. split; [congruence |].
    split; [left; split; [exact Hsch | lia] |].
    destruct (BrickBreaker.bricks g) as [| b0 bs] eqn:Eb.
    - right. destruct (Hclear Hbr2) as (H1 & H2 & _ & H4).
      split; [reflexivity |]. split; [congruence |]. split; [congruence |].
      exists (BrickBreaker.next_item g2). rewrite H4, Hw2, Hlv2. reflexivity.
    - left. destruct (Hleft ltac:(rewrite Hbr2; discriminate)) as (H1 & H2 & H3).
      repeat split; congruence. }
  destruct (Rle_dec (IZR (BrickBreaker.height g))
                    (y2 (Ball.position (BrickBreaker.ball g)))) as [Hm | Hm].
  - destruct (Z_le_gt_dec (BrickBreaker.lives g - 1) 0) as [Hz | Hz].
    + rewrite loop_lives_last_miss by assumption. eexists. split; [reflexivity |].
      cbn [BrickBreaker.game_over BrickBreaker.set_paused BrickBreaker.set_started
           BrickBreaker.create_item BrickBreaker.set_lives BrickBreaker.width
           BrickBreaker.scheduled BrickBreaker.lives BrickBreaker.level
           BrickBreaker.ball BrickBreaker.bricks].
      split; [reflexivity |]. split; [right; split; [exact Hs | lia] |].
      left. repeat split.
    + rewrite loop_lives_miss by (assumption || lia).
      apply Hcases; try reflexivity.
      * apply game_ok_create_item. apply (game_ok_flags _ _ _ false _ _).
        apply game_ok_park_ball.
        apply (game_ok_flags g (BrickBreaker.lives g - 1) (BrickBreaker.level g)
                 (BrickBreaker.started g) (BrickBreaker.paused g)
                 (BrickBreaker.scheduled g) Hg).
      * cbn. lia.
  - rewrite loop_lives_no_miss by lra.
    apply Hcases; try reflexivity; [exact Hg | lia].
Qed.

Section Progress.
Import BrickBreaker.
Variable overlapping : Box -> Box -> bool.

Lemma handle_effect (e : event) (g : t) :
  session_ok g ->
  exists g', handle overlapping e g = Ok g' /\
    width g' = width g /\
    ((scheduled g' = scheduled g /\ lives g' = lives g) \/
     (scheduled g = true /\
      ((scheduled g' = true /\ (1 <= lives g' <= lives g)%Z) \/
       (scheduled g' = false /\ lives g' = 0%Z)))) /\
    ((level g' = level g /\
      Ball.speed (ball g') = Ball.speed (ball g) /\
      exists touched, bricks g' = hit_all touched (bricks g)) \/
     (level g' = (level g + 1)%Z /\
      Ball.speed (ball g') = Ball.speed (ball g) + 8 / 10 /\
      exists n, bricks g' = number n (layout (width g) (level g + 1)))).
Proof.
  intros Hs.
  assert (Hsame : forall g', width g' = width g -> scheduled g' = scheduled g ->
            lives g' = lives g -> level g' = level g ->
            Ball.speed (ball g') = Ball.speed (ball g) -> bricks g' = bricks g ->
            width g' = width g /\
            ((scheduled g' = scheduled g /\ lives g' = lives g) \/
             (scheduled g = true /\
              ((scheduled g' = true /\ (1 <= lives g' <= lives g)%Z) \/
               (scheduled g' = false /\ lives g' = 0%Z)))) /\
            ((level g' = level g /\
              Ball.speed (ball g') = Ball.speed (ball g) /\
              exists touched, bricks g' = hit_all touched (bricks g)) \/
             (level g' = (level g + 1)%Z /\
              Ball.speed (ball g') = Ball.speed (ball g) + 8 / 10 /\
              exists n, bricks g' = number n (layout (width g) (level g + 1))))).
  { intros g' Hw Hsc Hli Hlv Hsp Hbr. split; [exact Hw |]. split; [left; auto |].
    left. split; [exact Hlv |]. split; [exact Hsp |].
    exists (fun _ => false). rewrite hit_all_untouched. exact Hbr. }
  destruct e; cbn [handle].
  - eexists. split; [reflexivity |]. apply Hsame;
      unfold mouse_move; destruct (negb _ && negb _); reflexivity.
  - eexists. split; [reflexivity |]. apply Hsame; reflexivity.
  - eexists. split; [reflexivity |]. apply Hsame; reflexivity.
  - eexists. split; [reflexivity |]. apply Hsame;
      unfold start_ball; destruct (negb (started g)); reflexivity.
  - eexists. split; [reflexivity |]. apply Hsame; reflexivity.
  - destruct (scheduled g) eqn:Es; [| exists g; split; [reflexivity |];
                                      apply Hsame; (reflexivity || exact Es)].
    destruct (negb (paused g) && started g) eqn:Eplay.
    + assert (Hp : phase_of g = Playing).
      { unfold phase_of. rewrite Es. apply andb_true_iff in Eplay.
        destruct Eplay as [Hpa Hst]. apply negb_true_iff in Hpa. rewrite Hpa, Hst.
        reflexivity. }
      destruct (tick_playing overlapping g Hs Hp) as (g1 & Hc & Ht & Hg1 & Hf).
      assert (Hm : game_ok (set_ball (set_scheduled g false) (Ball.move (ball g)))).
      { destruct Hs as (Hg & _). apply game_ok_set_ball.
        - apply (game_ok_flags g (lives g) (level g) (started g) (paused g) false Hg).
        - apply ball_ok_canvas_move. apply Hg. }
      destruct (check_collision_ok overlapping _ Hm) as (g1' & Hc' & _ & _ & _ & Hbr1).
      assert (g1' = g1) by congruence. subst g1'.
      cbn [handle] in Ht. rewrite Es in Ht. rewrite Ht.
      destruct Hf as (Hw1 & _ & Hlv1 & Hli1 & _ & _ & _ & _ & Hsc1 & _ & _ & _ & Hsp1).
      cbn [set_ball set_scheduled width level lives scheduled ball bricks
           Ball.move Ball.set_box Ball.speed] in Hw1, Hlv1, Hli1, Hsc1, Hsp1, Hbr1.
      destruct Hs as (_ & _ & H1). specialize (H1 Es).
      destruct (loop_lives_effect g1 Hg1) as (g' & Hr & Hw & Hlives & Hprog);
        [rewrite Hli1; exact H1 | exact Hsc1 |].
      exists g'. split; [exact Hr |]. split; [congruence |].
      split.
      * right. split; [reflexivity |]. rewrite <- Hli1. exact Hlives.
      * destruct Hprog as [(H2 & H3 & H4) | (_ & H2 & H3 & n & H4)].
        -- left. split; [congruence |]. split; [congruence |].
           eexists. rewrite H4. exact Hbr1.
        -- right. split; [congruence |]. split; [congruence |].
           exists n. rewrite H4, Hw1, Hlv1. reflexivity.
    + unfold loop. cbn [set_scheduled paused started]. rewrite Eplay.
      eexists. split; [reflexivity |].
      cbn [loop_end set_scheduled width scheduled lives level ball bricks].
      split; [reflexivity |]. split; [left; auto |].
      left. split; [reflexivity |]. split; [reflexivity |].
      exists (fun _ => false). rewrite hit_all_untouched. reflexivity.
Qed.

(** Every sequence of events of a session is served: no handler raises,
    whatever the state reached. *)
Theorem session_never_raises (g : t) (es : list event) :
  reachable overlapping g ->
  exists g', run overlapping es g = Ok g' /\ reachable overlapping g'.
Proof.
  revert g. induction es as [| e es IH]; intros g Hr.
  - exists g. split; [reflexivity | exact Hr].
  - destruct (handle_ok overlapping e g (reachable_ok overlapping g Hr)) as (g1 & He & _).
    destruct (IH g1) as (g' & Hrun & Hr').
    { apply (reach_event overlapping e g g1); assumption. }
    exists g'. split; [| exact Hr']. cbn [run]. rewrite He. exact Hrun.
Qed.
End Progress.

Lemma session_never_raises_witness :
  exists g g', BrickBreaker.new_game box_overlap 90 = Ok g /\
    BrickBreaker.run box_overlap
      [BrickBreaker.KeySpace; BrickBreaker.Timer; BrickBreaker.Motion 100;
       BrickBreaker.Timer] g = Ok g'.
Proof.
  eexists.
  destruct (session_never_raises box_overlap
              (BrickBreaker.mk 720 520 0 1 3 false false
                 (Paddle.init 2 720 (720 / 2) 490 110 12)
                 (Ball.init 3 (720 / 2) 460 8 5 90)
                 (number 6 (layout 720 1)) 39 true)
              [BrickBreaker.KeySpace; BrickBreaker.Timer; BrickBreaker.Motion 100;
               BrickBreaker.Timer]) as (g' & Hrun & _).
  - apply (BrickBreaker.reach_new box_overlap 90); [lra | apply new_game_state].
  - exists g'. split; [apply new_game_state | exact Hrun].
Defined.

(** ** Tiers, levels and lives over a session *)

Lemma range_nonneg (n r : Z) : In r (BrickBreaker.range n) -> (0 <= r)%Z.
Proof.
  unfold BrickBreaker.range. rewrite in_map_iff. intros (i & <- & _). lia.
Qed.

Lemma layout_in (w lvl : Z) (p : R * R * Z) :
  In p (layout w lvl) -> exists r c, (0 <= r)%Z /\ p = place w lvl r c.
Proof.
  unfold layout. rewrite in_flat_map. intros (r & Hr & Hp).
  apply in_map_iff in Hp. destruct Hp as (c & <- & _).
  exists r, c. split; [apply (range_nonneg _ _ Hr) | reflexivity].
Qed.

Lemma number_in (first : nat) (l : list (R * R * Z)) (b : Brick.t) :
  In b (number first l) ->
  exists i x y h, In (x, y, h) l /\ b = Brick.init i x y h.
Proof.
  revert first; induction l as [| [[x y] h] l IH]; intros first Hb; [contradiction |].
  cbn [number] in Hb. destruct Hb as [<- | Hb].
  - exists first, x, y, h. split; [left; reflexivity | reflexivity].
  - destruct (IH _ Hb) as (i & x' & y' & h' & Hin & ->).
    exists i, x', y', h'. split; [right; exact Hin | reflexivity].
Qed.

Lemma init_tier (i : nat) (x y : R) (h : Z) :
  (1 <= h <= 3)%Z -> tier_ok (Brick.init i x y h).
Proof.
  intros Hh. unfold tier_ok, Brick.init. cbn [Brick.hits Brick.fill].
  split; [exact Hh |].
  assert (Hc : h = 1%Z \/ h = 2%Z \/ h = 3%Z) by lia.
  destruct Hc as [-> | [-> | ->]]; reflexivity.
Qed.

Lemma layout_tiers (first : nat) (w lvl : Z) :
  (1 <= lvl)%Z -> Forall tier_ok (number first (layout w lvl)).
Proof.
  intros Hl. apply Forall_forall. intros b Hb.
  apply number_in in Hb. destruct Hb as (i & x & y & h & Hin & ->).
  apply layout_in in Hin. destruct Hin as (r & c & Hr & Hp).
  apply (f_equal snd) in Hp. unfold place in Hp. cbn [snd] in Hp. subst h.
  apply init_tier.
  assert (0 <= (r + lvl) / 2)%Z by (apply Z.div_pos; lia). lia.
Qed.

Lemma hit_all_tiers (touched : Brick.t -> bool) (bs : list Brick.t) :
  Forall tier_ok bs -> Forall tier_ok (hit_all touched bs).
Proof.
  induction 1 as [| b bs Hb _ IH]; [constructor |].
  cbn [hit_all flat_map]. fold (hit_all touched bs).
  apply Forall_app. split; [| exact IH].
  destruct (touched b); [| constructor; [exact Hb | constructor]].
  unfold after_hit. destruct (Z.leb_spec (Brick.hits b - 1) 0); [constructor |].
  constructor; [| constructor].
  destruct Hb as (Hh & _). unfold tier_ok. cbn [Brick.hits Brick.fill].
  split; [lia |].
  assert (Hc : (Brick.hits b - 1 = 1 \/ Brick.hits b - 1 = 2)%Z) by lia.
  destruct Hc as [-> | ->]; reflexivity.
Qed.

Section SessionProgress.
Import BrickBreaker.
Variable overlapping : Box -> Box -> bool.

Lemma reachable_progress (g : t) :
  reachable overlapping g ->
  Forall tier_ok (bricks g) /\
  (1 <= level g)%Z /\
  Ball.speed (ball g) = 5 + 8 / 10 * IZR (level g - 1) /\
  ((scheduled g = true /\ (1 <= lives g <= 3)%Z) \/
   (scheduled g = false /\ lives g = 0%Z)).
Proof.
  induction 1 as [angle g _ Hnew | e g g' Hr IH He].
  - rewrite new_game_state in Hnew.
    assert (Hg : g = mk 720 520 0 1 3 false false
                       (Paddle.init 2 720 (720 / 2) 490 110 12)
                       (Ball.init 3 (720 / 2) 460 8 5 angle)
                       (number 6 (layout 720 1)) 39 true) by congruence.
    subst g. cbn [bricks level ball lives scheduled Ball.init Ball.speed].
    split; [apply layout_tiers; lia |]. split; [lia |].
    split; [cbn; lra | left; split; [reflexivity | lia]].
  - destruct IH as (Ht & Hl & Hsp & Hli).
    destruct (handle_effect overlapping e g (reachable_ok overlapping g Hr))
      as (g'' & He' & _ & Hlives & Hprog).
    assert (g'' = g') by congruence. subst g''.
    split; [| split; [| split]].
    + destruct Hprog as [(_ & _ & touched & ->) | (_ & _ & n & ->)].
      * apply hit_all_tiers. exact Ht.
      * apply layout_tiers. lia.
    + destruct Hprog as [(-> & _) | (-> & _)]; lia.
    + destruct Hprog as [(-> & -> & _) | (-> & -> & _)]; [exact Hsp |].
      rewrite Hsp. replace (level g + 1 - 1)%Z with (level g - 1 + 1)%Z by lia.
      rewrite plus_IZR. lra.
    + destruct Hlives as [(Hs & Hv) | (Hs & Hcase)].
      * rewrite Hs, Hv. exact Hli.
      * destruct Hli as [(_ & Hb) | (Hf & _)]; [| congruence].
        destruct Hcase as [(H1 & H2) | (H1 & H2)]; [left | right]; split; auto; lia.
Qed.

(** Every brick of a session is of tier 1, 2 or 3 and wears the colour
    of its tier: the fallback colour of [COLORS.get] is never drawn. *)
Theorem bricks_stay_in_their_tiers (g : t) (b : Brick.t) :
  reachable overlapping g -> In b (bricks g) ->
  (1 <= Brick.hits b <= 3)%Z /\
  Brick.COLORS (Brick.hits b) = Some (Brick.fill b) /\
  Brick.fill b <> "#CCCCCC"%string.
Proof.
  intros Hr Hb. destruct (reachable_progress g Hr) as (Ht & _).
  rewrite Forall_forall in Ht. destruct (Ht b Hb) as (Hh & Hc).
  split; [exact Hh |]. split; [exact Hc |].
  assert (Hcase : (Brick.hits b = 1 \/ Brick.hits b = 2 \/ Brick.hits b = 3)%Z) by lia.
  destruct Hcase as [E | [E | E]]; rewrite E in Hc; cbn in Hc;
    injection Hc as <-; discriminate.
Qed.

(** The ball's speed is tied to the level: 5 at level 1 and 0.8 more
    for each level after, whatever happened in between; the level never
    falls below 1. *)
Theorem speed_follows_level (g : t) :
  reachable overlapping g ->
  (1 <= level g)%Z /\
  Ball.speed (ball g) = 5 + 8 / 10 * IZR (level g - 1) /\
  math.hypot (Ball.vx (ball g)) (Ball.vy (ball g)) = 5 + 8 / 10 * IZR (level g - 1).
Proof.
  intros Hr. destruct (reachable_progress g Hr) as (_ & Hl & Hsp & _).
  split; [exact Hl |]. split; [exact Hsp |].
  destruct (reachable_ok overlapping g Hr) as (((Hh & _) & _) & _).
  rewrite Hh. exact Hsp.
Qed.

(** The lives of a session stay between 0 and 3, and the game is over
    exactly when none is left. *)
Theorem game_over_iff_no_lives (g : t) :
  reachable overlapping g ->
  (0 <= lives g <= 3)%Z /\
  (phase_of g = GameOver <-> lives g = 0%Z).
Proof.
  intros Hr. destruct (reachable_progress g Hr) as (_ & _ & _ & Hli).
  unfold phase_of.
  destruct Hli as [(Hs & Hl) | (Hs & Hl)]; rewrite Hs; cbn [negb].
  - split; [lia |]. split; [| lia].
    destruct (paused g); [discriminate |]. destruct (started g); discriminate.
  - split; [lia |]. split; auto.
Qed.

(** In every state of a session the ball is a 16 by 16 oval whose
    velocity has the magnitude [speed], the paddle is at most 110 wide
    with its top 36 above the bottom of the field, and the bricks are
    distinct items of the canvas. *)
Theorem session_geometry (g : t) :
  reachable overlapping g ->
  x2 (Ball.position (ball g)) - x1 (Ball.position (ball g)) = 16 /\
  y2 (Ball.position (ball g)) - y1 (Ball.position (ball g)) = 16 /\
  math.hypot (Ball.vx (ball g)) (Ball.vy (ball g)) = Ball.speed (ball g) /\
  Paddle.width (paddle g) = 110 /\
  x2 (Paddle.coords (paddle g)) - x1 (Paddle.coords (paddle g)) <= 110 /\
  y1 (Paddle.coords (paddle g)) = IZR (height g) - 36 /\
  NoDup (map Brick.item (bricks g)) /\
  (forall b, In b (bricks g) -> (Brick.item b < next_item g)%nat).
Proof.
  intros Hr.
  destruct (reachable_ok overlapping g Hr)
    as (((Hh & _ & Hx & Hy) & (Hw & Hpw & Hy1 & _) & _ & _ & Hnd & Hlt) & _).
  rewrite Forall_forall in Hlt.
  unfold Ball.position, Paddle.coords. auto 10.
Qed.
End SessionProgress.

Lemma bricks_stay_in_their_tiers_witness :
  exists g b, BrickBreaker.new_game box_overlap 90 = Ok g /\
    In b (BrickBreaker.bricks g) /\ Brick.fill b <> "#CCCCCC"%string.
Proof.
  eexists. exists (Brick.init 6 (60 + IZR (720 - 2 * 60) / 8 * 0 + IZR (720 - 2 * 60) / 8 / 2)
                     (IZR (60 + 0 * 26)) 1).
  split; [apply new_game_state |].
  assert (Hin : In (Brick.init 6 (60 + IZR (720 - 2 * 60) / 8 * 0 + IZR (720 - 2 * 60) / 8 / 2)
                      (IZR (60 + 0 * 26)) 1)
                   (BrickBreaker.bricks
                      (BrickBreaker.mk 720 520 0 1 3 false false
                         (Paddle.init 2 720 (720 / 2) 490 110 12)
                         (Ball.init 3 (720 / 2) 460 8 5 90)
                         (number 6 (layout 720 1)) 39 true))).
  { left. reflexivity. }
  split; [exact Hin |].
  apply (bricks_stay_in_their_tiers box_overlap
           (BrickBreaker.mk 720 520 0 1 3 false false
              (Paddle.init 2 720 (720 / 2) 490 110 12)
              (Ball.init 3 (720 / 2) 460 8 5 90)
              (number 6 (layout 720 1)) 39 true)).
  - apply (BrickBreaker.reach_new box_overlap 90); [lra | apply new_game_state].
  - exact Hin.
Defined.

Lemma speed_follows_level_witness :
  exists g, BrickBreaker.new_game box_overlap 90 = Ok g /\
    Ball.speed (BrickBreaker.ball g) = 5 + 8 / 10 * IZR (BrickBreaker.level g - 1).
Proof.
  eexists. split; [apply new_game_state |].
  apply (speed_follows_level box_overlap).
  apply (BrickBreaker.reach_new box_overlap 90); [lra | apply new_game_state].
Defined.

Lemma game_over_iff_no_lives_witness :
  exists g, BrickBreaker.new_game box_overlap 90 = Ok g /\
    (0 <= BrickBreaker.lives g <= 3)%Z.
Proof.
  eexists. split; [apply new_game_state |].
  apply (game_over_iff_no_lives box_overlap).
  apply (BrickBreaker.reach_new box_overlap 90); [lra | apply new_game_state].
Defined.

Lemma session_geometry_witness :
  exists g, BrickBreaker.new_game box_overlap 90 = Ok g /\
    Paddle.width (BrickBreaker.paddle g) = 110.
Proof.
  eexists. split; [apply new_game_state |].
  apply (session_geometry box_overlap).
  apply (BrickBreaker.reach_new box_overlap 90); [lra | apply new_game_state].
Defined.

(** ** A level cleared *)

Section LevelClear.
Import BrickBreaker.
Variable overlapping : Box -> Box -> bool.

End LevelClear.


(** ** The layout from level 4 on *)

Lemma flat_map_ext_in {A B : Type} (f f' : A -> list B) (l : list A) :
  (forall a, In a l -> f a = f' a) -> flat_map f l = flat_map f' l.
Proof.
  induction l as [| a l IH]; intros H; [reflexivity |].
  cbn [flat_map]. rewrite (H a) by (left; reflexivity).
  rewrite IH; [reflexivity |]. intros b Hb. apply H. right. exact Hb.
Qed.

Lemma place_hardest (w lvl r c : Z) :
  (0 <= r)%Z -> (4 <= lvl)%Z ->
  place w lvl r c
  = (60 + IZR (w - 2 * 60) / 8 * IZR c + IZR (w - 2 * 60) / 8 / 2, IZR (60 + r * 26), 3%Z).
Proof.
  intros Hr Hl. unfold place. f_equal.
  assert (2 <= (r + lvl) / 2)%Z by (apply Z.div_le_lower_bound; lia). lia.
Qed.

Lemma layout_hardest (w lvl : Z) : (4 <= lvl)%Z -> layout w lvl = layout w 4.
Proof.
  intros Hl. unfold layout.
  replace (Z.min 6 (3 + lvl)) with (Z.min 6 (3 + 4)) by lia.
  apply flat_map_ext_in. intros r Hr. apply range_nonneg in Hr.
  apply map_ext. intros c. rewrite !place_hardest by lia. reflexivity.
Qed.

(** The layout stops changing at level 4: from there on every level is
    the full grid of 6 rows of 8 bricks, each of 3 hits, placed as at
    level 4; only the ball's speed makes later levels harder. *)
Theorem layout_is_hardest_from_level_4 (lvl : Z) (g : BrickBreaker.t) :
  (4 <= lvl)%Z ->
  BrickBreaker.bricks (BrickBreaker.build_level lvl g)
  = BrickBreaker.bricks (BrickBreaker.build_level 4 g) /\
  length (BrickBreaker.bricks (BrickBreaker.build_level lvl g)) = 48%nat /\
  (forall b, In b (BrickBreaker.bricks (BrickBreaker.build_level lvl g)) ->
             Brick.hits b = 3%Z).
Proof.
  intros Hl. rewrite !build_level_layout.
  cbn [BrickBreaker.bricks]. rewrite (layout_hardest _ lvl Hl).
  split; [reflexivity |]. split.
  - rewrite number_length, layout_length. reflexivity.
  - intros b Hb. apply number_in in Hb. destruct Hb as (i & x & y & h & Hin & ->).
    apply layout_in in Hin. destruct Hin as (r & c & Hr & Hp).
    rewrite place_hardest in Hp by lia.
    apply (f_equal snd) in Hp. cbn [snd] in Hp. subst h. reflexivity.
Qed.

Lemma layout_is_hardest_from_level_4_witness :
  let g := BrickBreaker.mk 720 520 0 1 3 false false
             (Paddle.mk 2 (mkBox 305 484 415 496) 110 12 720)
             (Ball.mk 3 (mkBox 352 452 368 468) 8 3 (-4) 5) [] 6 false in
  length (BrickBreaker.bricks (BrickBreaker.build_level 9 g)) = 48%nat.
Proof.
  cbv zeta.
  apply (layout_is_hardest_from_level_4 9
           (BrickBreaker.mk 720 520 0 1 3 false false
              (Paddle.mk 2 (mkBox 305 484 415 496) 110 12 720)
              (Ball.mk 3 (mkBox 352 452 368 468) 8 3 (-4) 5) [] 6 false)).
  lia.
Defined.

(** Below level -2 [range(rows)] is empty: [build_level] removes the
    bricks there were, builds none and creates no canvas item. *)
Theorem build_level_without_rows (lvl : Z) (g : BrickBreaker.t) :
  (lvl <= -3)%Z ->
  BrickBreaker.bricks (BrickBreaker.build_level lvl g) = [] /\
  BrickBreaker.next_item (BrickBreaker.build_level lvl g) = BrickBreaker.next_item g.
Proof.
  intros Hl. rewrite build_level_layout. cbn [BrickBreaker.bricks BrickBreaker.next_item].
  assert (Hlay : layout (BrickBreaker.width g) lvl = []).
  { apply length_zero_iff_nil. rewrite layout_length.
    replace (Z.to_nat (Z.min 6 (3 + lvl))) with 0%nat by lia. reflexivity. }
  rewrite Hlay. split; [reflexivity | apply Nat.add_0_r].
Qed.

Lemma build_level_without_rows_witness :
  BrickBreaker.bricks
    (BrickBreaker.build_level (-3)
       (BrickBreaker.mk 720 520 0 1 3 false false
          (Paddle.mk 2 (mkBox 305 484 415 496) 110 12 720)
          (Ball.mk 3 (mkBox 352 452 368 468) 8 3 (-4) 5)
          [Brick.init 6 (975 / 10) 60 1] 7 false)) = [].
Proof.
  apply (build_level_without_rows (-3)
           (BrickBreaker.mk 720 520 0 1 3 false false
              (Paddle.mk 2 (mkBox 305 484 415 496) 110 12 720)
              (Ball.mk 3 (mkBox 352 452 368 468) 8 3 (-4) 5)
              [Brick.init 6 (975 / 10) 60 1] 7 false)).
  lia.
Defined.

(** ** Restart *)


(** ** The side the paddle sends the ball to *)

Lemma check_paddle_reflects (pos : Box) (g : BrickBreaker.t) :
  let pc := Paddle.coords (BrickBreaker.paddle g) in
  let s := Ball.speed (BrickBreaker.ball g) in
  let d := (x1 pos + x2 pos) / 2 - (x1 pc + x2 pc) / 2 in
  let angle := d / (110 / 2) * math.radians 75 in
  0 < s -> x2 pos - x1 pos = 16 ->
  Paddle.width (BrickBreaker.paddle g) = 110 ->
  x2 pc - x1 pc <= 110 ->
  BrickBreaker.paddle_hit pos g = true ->
  - (PI / 2) < angle < PI / 2 /\
  BrickBreaker.check_paddle pos g
  = Ok (BrickBreaker.set_ball g
          (Ball.set_velocity (BrickBreaker.ball g) (s * sin angle) (- (s * cos angle)))).
Proof.
  intros pc s d angle Hs Hball Hw Hpw Hhit.
  pose proof Hhit as Hgeo. apply paddle_hit_iff in Hgeo. fold pc in Hgeo.
  destruct Hgeo as (_ & Hl & Hr & _).
  assert (Hang : - (PI / 2) < angle < PI / 2).
  { apply reflection_angle_bound. unfold d. lra. }
  split; [exact Hang |].
  assert (Hcos : 0 < cos angle) by (apply cos_gt_0; lra).
  unfold BrickBreaker.check_paddle. rewrite Hhit, Hw.
  rewrite truediv_ok by lra. cbn [bind]. fold pc s d angle.
  rewrite (Rabs_right (s * cos angle)); [reflexivity |].
  apply Rle_ge. apply Rlt_le. apply Rmult_lt_0_compat; assumption.
Qed.

(** A ball caught left of the paddle's centre leaves to the left, one
    caught right of it to the right; a ball centred on an edge of the
    full paddle leaves at 75 degrees from the vertical, toward that
    side. *)
Theorem paddle_sends_ball_to_the_struck_side (pos : Box) (g : BrickBreaker.t) :
  let pc := Paddle.coords (BrickBreaker.paddle g) in
  let s := Ball.speed (BrickBreaker.ball g) in
  let paddle_center := (x1 pc + x2 pc) / 2 in
  let ball_center := (x1 pos + x2 pos) / 2 in
  0 < s -> x2 pos - x1 pos = 16 ->
  Paddle.width (BrickBreaker.paddle g) = 110 ->
  x2 pc - x1 pc <= 110 ->
  BrickBreaker.paddle_hit pos g = true ->
  exists g', BrickBreaker.check_paddle pos g = Ok g' /\
    (ball_center < paddle_center -> Ball.vx (BrickBreaker.ball g') < 0) /\
    (paddle_center < ball_center -> 0 < Ball.vx (BrickBreaker.ball g')) /\
    (x2 pc - x1 pc = 110 -> ball_center = x1 pc ->
     Ball.vx (BrickBreaker.ball g') = - (s * sin (math.radians 75)) /\
     Ball.vy (BrickBreaker.ball g') = - (s * cos (math.radians 75))) /\
    (x2 pc - x1 pc = 110 -> ball_center = x2 pc ->
     Ball.vx (BrickBreaker.ball g') = s * sin (math.radians 75) /\
     Ball.vy (BrickBreaker.ball g') = - (s * cos (math.radians 75))).
Proof.
  intros pc s paddle_center ball_center Hs Hball Hw Hpw Hhit.
  destruct (check_paddle_reflects pos g Hs Hball Hw Hpw Hhit) as (Hang & Hcp).
  fold pc s in Hang, Hcp. fold paddle_center ball_center in Hang, Hcp.
  set (angle := (ball_center - paddle_center) / (110 / 2) * math.radians 75) in *.
  eexists. split; [exact Hcp |].
  cbn [BrickBreaker.ball BrickBreaker.set_ball Ball.set_velocity Ball.vx Ball.vy].
  pose proof PI_RGT_0 as Hpi.
  assert (Hrad : 0 < math.radians 75) by (unfold math.radians; lra).
  split; [| split; [| split]].
  - intros Hlt.
    assert (Hneg : angle < 0).
    { unfold angle.
      replace ((ball_center - paddle_center) / (110 / 2) * math.radians 75)
        with (- ((paddle_center - ball_center) * (math.radians 75 / 55))) by field.
      assert (0 < (paddle_center - ball_center) * (math.radians 75 / 55))
        by (apply Rmult_lt_0_compat; lra).
      lra. }
    assert (sin angle < 0) by (apply sin_lt_0_var; lra). nra.
  - intros Hgt.
    assert (Hpos : 0 < angle).
    { unfold angle.
      replace ((ball_center - paddle_center) / (110 / 2) * math.radians 75)
        with ((ball_center - paddle_center) * (math.radians 75 / 55)) by field.
      apply Rmult_lt_0_compat; lra. }
    assert (0 < sin angle) by (apply sin_gt_0; lra). nra.
  - intros Hfull Hedge.
    assert (Ha : angle = - math.radians 75).
    { unfold angle, paddle_center. rewrite Hedge.
      replace (x1 pc - (x1 pc + x2 pc) / 2) with (- (110 / 2)) by lra. field. }
    rewrite Ha, sin_neg, cos_neg. split; ring.
  - intros Hfull Hedge.
    assert (Ha : angle = math.radians 75).
    { unfold angle, paddle_center. rewrite Hedge.
      replace (x2 pc - (x1 pc + x2 pc) / 2) with (110 / 2) by lra. field. }
    rewrite Ha. split; ring.
Qed.

Lemma paddle_sends_ball_to_the_struck_side_witness :
  let g := BrickBreaker.mk 720 520 0 1 3 true false
             (Paddle.mk 2 (mkBox 305 484 415 496) 110 12 720)
             (Ball.mk 3 (mkBox 300 468 316 484) 8 3 4 5) [] 40 true in
  exists g', BrickBreaker.check_paddle (Ball.position (BrickBreaker.ball g)) g = Ok g' /\
    Ball.vx (BrickBreaker.ball g') < 0.
Proof.
  cbv zeta.
  destruct (paddle_sends_ball_to_the_struck_side
              (mkBox 300 468 316 484)
              (BrickBreaker.mk 720 520 0 1 3 true false
                 (Paddle.mk 2 (mkBox 305 484 415 496) 110 12 720)
                 (Ball.mk 3 (mkBox 300 468 316 484) 8 3 4 5) [] 40 true))
    as (g' & Hcp & Hleft & _).
  - simpl; lra.
  - simpl; lra.
  - reflexivity.
  - simpl; lra.
  - apply paddle_hit_iff. simpl. lra.
  - exists g'. split; [exact Hcp |]. apply Hleft. simpl. lra.
Defined.

(** ** Items that are no bricks *)

Lemma hit_item_missing (it : nat) (bs : list Brick.t) :
  ~ In it (map Brick.item bs) -> BrickBreaker.hit_item it bs = None.
Proof.
  induction bs as [| b bs IH]; intros Hno; [reflexivity |].
  cbn [BrickBreaker.hit_item]. cbn [map In] in Hno.
  destruct (Nat.eqb_spec (Brick.item b) it) as [E | E]; [tauto |].
  rewrite IH by tauto. reflexivity.
Qed.

(** An overlapping item that is none of the active bricks (the paddle,
    a text, a brick already removed) changes nothing: no points, no
    bounce, the bricks as they were. *)
Theorem collide_skips_what_is_no_brick (g : BrickBreaker.t) (it : nat) :
  ~ In it (map Brick.item (BrickBreaker.bricks g)) ->
  BrickBreaker.collide g it = g.
Proof.
  intros Hno. unfold BrickBreaker.collide. rewrite hit_item_missing by exact Hno.
  reflexivity.
Qed.

Lemma collide_skips_what_is_no_brick_witness :
  let g := BrickBreaker.mk 720 520 0 1 3 true false
             (Paddle.mk 2 (mkBox 305 484 415 496) 110 12 720)
             (Ball.mk 3 (mkBox 300 468 316 484) 8 3 4 5)
             [Brick.init 6 (975 / 10) 60 1] 40 true in
  BrickBreaker.collide g 2 = g.
Proof.
  cbv zeta.
  apply (collide_skips_what_is_no_brick
           (BrickBreaker.mk 720 520 0 1 3 true false
              (Paddle.mk 2 (mkBox 305 484 415 496) 110 12 720)
              (Ball.mk 3 (mkBox 300 468 316 484) 8 3 4 5)
              [Brick.init 6 (975 / 10) 60 1] 40 true)).
  simpl. intros [H | []]. discriminate H.
Defined.

(** ** Speed changes in a row *)

(** Setting the speed of a moving ball twice is as setting the second
    speed at once; so [increase_speed] by two amounts is [increase_speed]
    by their sum, and a change undone by the opposite change gives back
    the velocity the ball had. *)
Theorem set_speed_twice_is_set_speed_once (s1 s2 : R) (b : Ball.t) :
  math.hypot (Ball.vx b) (Ball.vy b) <> 0 -> 0 < s1 ->
  exists b1, Ball.set_speed s1 b = Ok b1 /\
    Ball.set_speed s2 b1 = Ball.set_speed s2 b /\
    Ball.increase_speed s2 b1 = Ball.set_speed (s1 + s2) b /\
    (math.hypot (Ball.vx b) (Ball.vy b) = Ball.speed b ->
     Ball.set_speed (Ball.speed b) b1 = Ok b).
Proof.
  intros Hm Hs1.
  destruct (set_speed_rescales s1 b Hm Hs1) as (b1 & H1 & Hsp & Hh & _ & Hbox & Hrad & Hit).
  exists b1. split; [exact H1 |].
  assert (Hm1 : math.hypot (Ball.vx b1) (Ball.vy b1) <> 0) by (rewrite Hh; lra).
  assert (Hv : Ball.vx b1 = Ball.vx b * (s1 / math.hypot (Ball.vx b) (Ball.vy b)) /\
               Ball.vy b1 = Ball.vy b * (s1 / math.hypot (Ball.vx b) (Ball.vy b))).
  { rewrite set_speed_ok in H1 by exact Hm. injection H1 as <-. split; reflexivity. }
  destruct Hv as (Hvx & Hvy).
  assert (Hany : forall s, Ball.set_speed s b1 = Ball.set_speed s b).
  { intros s. rewrite !set_speed_ok by assumption.
    rewrite Hbox, Hrad, Hit, Hh, Hvx, Hvy. f_equal. f_equal; field; split; lra. }
  split; [apply Hany |]. split.
  - unfold Ball.increase_speed. rewrite Hsp. apply Hany.
  - intros Hinv. rewrite Hany. rewrite set_speed_ok by exact Hm.
    rewrite Hinv.
    assert (Hsb : Ball.speed b <> 0) by (rewrite <- Hinv; exact Hm).
    destruct b as [i bx r vx vy s]. cbn [Ball.item Ball.box Ball.radius Ball.vx Ball.vy
                                          Ball.speed] in *.
    f_equal. f_equal; field; exact Hsb.
Qed.

Lemma set_speed_twice_is_set_speed_once_witness :
  exists b1,
    Ball.set_speed 6 (Ball.mk 3 (mkBox 352 452 368 468) 8 3 (-4) 5) = Ok b1 /\
    Ball.set_speed 5 b1 = Ok (Ball.mk 3 (mkBox 352 452 368 468) 8 3 (-4) 5).
Proof.
  assert (H5 : math.hypot 3 (-4) = 5) by (apply hypot_unique; lra).
  destruct (set_speed_twice_is_set_speed_once 6 5
              (Ball.mk 3 (mkBox 352 452 368 468) 8 3 (-4) 5))
    as (b1 & H1 & _ & _ & Hback).
  - cbn [Ball.vx Ball.vy]. rewrite H5. lra.
  - lra.
  - exists b1. split; [exact H1 |]. apply Hback. exact H5.
Defined.

(** ** What the collisions of a tick can change *)

Lemma iter_opp_parity (k : nat) (v : R) :
  Nat.iter k Ropp v = if Nat.even k then v else - v.
Proof.
  induction k as [| k IH]; [reflexivity |].
  change (Nat.iter (S k) Ropp v) with (- Nat.iter k Ropp v).
  rewrite IH, Nat.even_succ, <- Nat.negb_even.
  destruct (Nat.even k); cbn [negb]; ring.
Qed.

Lemma hit_all_shrinks (touched : Brick.t -> bool) (bs : list Brick.t) :
  (length (hit_all touched bs) <= length bs)%nat.
Proof.
  induction bs as [| b bs IH]; [apply le_n |].
  cbn [hit_all flat_map]. fold (hit_all touched bs). rewrite length_app.
  destruct (touched b).
  - unfold after_hit. destruct (Brick.hits b - 1 <=? 0)%Z; cbn [length]; lia.
  - cbn [length]. lia.
Qed.

Section Collisions.
Import BrickBreaker.
Variable overlapping : Box -> Box -> bool.

(** [check_collision] returns, and changes nothing but the score, which
    does not go down, the bricks, none of which is added, and the ball's
    velocity: the ball and the paddle stay where they are, and lives,
    level and the start and pause flags as they are. *)
Theorem collisions_change_score_bricks_velocity (g : t) :
  game_ok g ->
  exists g', check_collision overlapping g = Ok g' /\
    Ball.position (ball g') = Ball.position (ball g) /\
    Ball.speed (ball g') = Ball.speed (ball g) /\
    paddle g' = paddle g /\
    lives g' = lives g /\ level g' = level g /\
    started g' = started g /\ paused g' = paused g /\
    (score g <= score g')%Z /\
    bricks g' = hit_all (fun b => overlapping (Ball.position (ball g)) (Brick.box b))
                        (bricks g) /\
    (length (bricks g') <= length (bricks g))%nat.
Proof.
  intros Hg.
  destruct (check_collision_ok overlapping g Hg) as (g' & Hc & _ & Hf & Hsc & Hbr).
  destruct Hf as (_ & _ & Hlv & Hli & Hst & Hpa & Hpd & _ & _ & _ & Hbox & _ & Hsp).
  exists g'. split; [exact Hc |]. unfold Ball.position.
  split; [exact Hbox |]. split; [exact Hsp |]. split; [exact Hpd |].
  split; [exact Hli |]. split; [exact Hlv |]. split; [exact Hst |]. split; [exact Hpa |].
  split; [| split; [exact Hbr |]].
  - rewrite Hsc.
    destruct (points_nonneg_multiple
                (fun b => overlapping (Ball.box (ball g)) (Brick.box b)) (bricks g)) as [H0 _].
    unfold Ball.position. lia.
  - rewrite Hbr. apply hit_all_shrinks.
Qed.

(** A ball that overlaps an even number of bricks in a tick is not
    turned by them: the bounces cancel and [vy] is what it was, as when
    the ball meets the seam of two bricks; an odd number turns it. *)
Theorem bounces_off_bricks_cancel_in_pairs (pos : Box) (g : t) :
  NoDup (map Brick.item (bricks g)) ->
  let k := length (filter (fun b => overlapping pos (Brick.box b)) (bricks g)) in
  (Nat.even k = true ->
   Ball.vy (ball (check_bricks overlapping pos g)) = Ball.vy (ball g)) /\
  (Nat.even k = false ->
   Ball.vy (ball (check_bricks overlapping pos g)) = - Ball.vy (ball g)) /\
  (score (check_bricks overlapping pos g) >= score g + 5 * Z.of_nat k)%Z.
Proof.
  intros Hnd k. rewrite check_bricks_all by exact Hnd.
  cbn [ball Ball.set_velocity Ball.vy score]. fold k. rewrite iter_opp_parity.
  split; [intros ->; reflexivity |]. split; [intros ->; reflexivity |].
  rewrite points_by_count. subst k.
  assert (Hsplit : forall (f : Brick.t -> bool) (d : Brick.t -> bool) (l : list Brick.t),
             length (filter f l)
             = (length (filter (fun b => f b && d b) l)
                + length (filter (fun b => f b && negb (d b)) l))%nat).
  { intros f d l. induction l as [| a l IH]; [reflexivity |].
    cbn [filter]. destruct (f a); destruct (d a); cbn [andb negb length]; lia. }
  rewrite (Hsplit (fun b => overlapping pos (Brick.box b))
                  (fun b => (Brick.hits b - 1 <=? 0)%Z)).
  lia.
Qed.
End Collisions.

Lemma collisions_change_score_bricks_velocity_witness :
  let g := BrickBreaker.mk 720 520 0 1 3 true false
             (Paddle.mk 2 (mkBox 305 484 415 496) 110 12 720)
             (Ball.mk 3 (mkBox 127 65 143 81) 8 3 (-4) 5)
             [Brick.init 6 (975 / 10) 60 1; Brick.init 7 (1725 / 10) 60 3] 8 true in
  exists g', BrickBreaker.check_collision box_overlap g = Ok g' /\
             BrickBreaker.lives g' = 3%Z.
Proof.
  cbv zeta.
  destruct (collisions_change_score_bricks_velocity box_overlap
              (BrickBreaker.mk 720 520 0 1 3 true false
                 (Paddle.mk 2 (mkBox 305 484 415 496) 110 12 720)
                 (Ball.mk 3 (mkBox 127 65 143 81) 8 3 (-4) 5)
                 [Brick.init 6 (975 / 10) 60 1; Brick.init 7 (1725 / 10) 60 3] 8 true))
    as (g' & Hc & _ & _ & _ & Hl & _).
  - unfold game_ok, ball_ok, paddle_ok; simpl.
    assert (H5 : math.hypot 3 (-4) = 5) by (apply hypot_unique; lra).
    rewrite H5.
    repeat split; try lra; try lia.
    + apply Z.divide_0_r.
    + constructor; [simpl; intros [H | []]; discriminate |].
      constructor; [simpl; tauto | constructor].
    + repeat constructor; simpl; lia.
  - exists g'. split; [exact Hc | exact Hl].
Defined.

Lemma bounces_off_bricks_cancel_in_pairs_witness :
  let g := BrickBreaker.mk 720 520 0 1 3 true false
             (Paddle.mk 2 (mkBox 305 484 415 496) 110 12 720)
             (Ball.mk 3 (mkBox 127 65 143 81) 8 3 (-4) 5)
             [Brick.init 6 (975 / 10) 60 1; Brick.init 7 (1725 / 10) 60 3] 8 true in
  Ball.vy (BrickBreaker.ball
             (BrickBreaker.check_bricks box_overlap (Ball.position (BrickBreaker.ball g)) g))
  = -4.
Proof.
  cbv zeta.
  assert (Hnd : NoDup [6%nat; 7%nat]).
  { constructor; [simpl; intros [H | []]; discriminate |].
    constructor; [simpl; tauto | constructor]. }
  destruct (bounces_off_bricks_cancel_in_pairs box_overlap
              (mkBox 127 65 143 81)
              (BrickBreaker.mk 720 520 0 1 3 true false
                 (Paddle.mk 2 (mkBox 305 484 415 496) 110 12 720)
                 (Ball.mk 3 (mkBox 127 65 143 81) 8 3 (-4) 5)
                 [Brick.init 6 (975 / 10) 60 1; Brick.init 7 (1725 / 10) 60 3] 8 true)
              Hnd) as (Heven & _).
  apply Heven.
  assert (T6 : box_overlap (mkBox 127 65 143 81) (Brick.box (Brick.init 6 (975 / 10) 60 1)) = true).
  { unfold box_overlap. rewrite !andb_true_iff, !Rleb_true. simpl. lra. }
  assert (T7 : box_overlap (mkBox 127 65 143 81) (Brick.box (Brick.init 7 (1725 / 10) 60 3)) = true).
  { unfold box_overlap. rewrite !andb_true_iff, !Rleb_true. simpl. lra. }
  cbn [BrickBreaker.bricks filter]. rewrite T6, T7. reflexivity.
Defined.

(** ** The guard on the ball's direction *)

(** The paddle never catches a ball that is not moving down; and a ball
    it has caught moves up, so that the paddle check of any later tick
    leaves it alone until something turns it down again. *)
Theorem paddle_catches_a_ball_once (pos : Box) (g : BrickBreaker.t) :
  let pc := Paddle.coords (BrickBreaker.paddle g) in
  0 < Ball.speed (BrickBreaker.ball g) -> x2 pos - x1 pos = 16 ->
  Paddle.width (BrickBreaker.paddle g) = 110 ->
  x2 pc - x1 pc <= 110 ->
  (Ball.vy (BrickBreaker.ball g) <= 0 -> BrickBreaker.check_paddle pos g = Ok g) /\
  (BrickBreaker.paddle_hit pos g = true ->
   exists g', BrickBreaker.check_paddle pos g = Ok g' /\
     forall pos', BrickBreaker.paddle_hit pos' g' = false /\
                  BrickBreaker.check_paddle pos' g' = Ok g').
Proof.
  intros pc Hs Hball Hw Hpw.
  assert (Hup : forall q h, Ball.vy (BrickBreaker.ball h) <= 0 ->
                            BrickBreaker.paddle_hit q h = false).
  { intros q h Hv. unfold BrickBreaker.paddle_hit.
    rewrite (proj2 (Rltb_false 0 (Ball.vy (BrickBreaker.ball h)))) by exact Hv.
    apply andb_false_r. }
  split.
  - intros Hv. unfold BrickBreaker.check_paddle. rewrite Hup by exact Hv. reflexivity.
  - intros Hhit.
    destruct (check_paddle_reflects pos g Hs Hball Hw Hpw Hhit) as (Hang & Hcp).
    eexists. split; [exact Hcp |]. intros pos'.
    assert (Hv : Ball.vy (BrickBreaker.ball
                   (BrickBreaker.set_ball g
                      (Ball.set_velocity (BrickBreaker.ball g)
                         (Ball.speed (BrickBreaker.ball g) *
                          sin (((x1 pos + x2 pos) / 2
                                - (x1 (Paddle.coords (BrickBreaker.paddle g))
                                   + x2 (Paddle.coords (BrickBreaker.paddle g))) / 2)
                               / (110 / 2) * math.radians 75))
                         (- (Ball.speed (BrickBreaker.ball g) *
                             cos (((x1 pos + x2 pos) / 2
                                   - (x1 (Paddle.coords (BrickBreaker.paddle g))
                                      + x2 (Paddle.coords (BrickBreaker.paddle g))) / 2)
                                  / (110 / 2) * math.radians 75)))))) <= 0).
    { cbn [BrickBreaker.ball BrickBreaker.set_ball Ball.set_velocity Ball.vy].
      assert (0 < cos (((x1 pos + x2 pos) / 2
                        - (x1 (Paddle.coords (BrickBreaker.paddle g))
                           + x2 (Paddle.coords (BrickBreaker.paddle g))) / 2)
                       / (110 / 2) * math.radians 75)) by (apply cos_gt_0; lra).
      nra. }
    split; [apply Hup; exact Hv |].
    unfold BrickBreaker.check_paddle at 1. rewrite (Hup pos' _ Hv). reflexivity.
Qed.

Lemma paddle_catches_a_ball_once_witness :
  let g := BrickBreaker.mk 720 520 0 1 3 true false
             (Paddle.mk 2 (mkBox 305 484 415 496) 110 12 720)
             (Ball.mk 3 (mkBox 300 468 316 484) 8 3 (-4) 5) [] 40 true in
  BrickBreaker.check_paddle (Ball.position (BrickBreaker.ball g)) g = Ok g.
Proof.
  cbv zeta.
  apply (paddle_catches_a_ball_once
           (mkBox 300 468 316 484)
           (BrickBreaker.mk 720 520 0 1 3 true false
              (Paddle.mk 2 (mkBox 305 484 415 496) 110 12 720)
              (Ball.mk 3 (mkBox 300 468 316 484) 8 3 (-4) 5) [] 40 true));
    simpl; lra.
Defined.
